(** * premier_analysis: python/tools/multi.py

    A shallow embedding of the bootstrap confidence-interval code
    ([boot_cis], [boot_roc], [jackknife_metrics]), of the table timing
    helper [get_times] and of the Dask feature pipeline [parquets_dask],
    together with the properties of the design document that concern them.

    Conventions of the embedding.
    - Python and NumPy integers are [Z]; fixed-width NumPy integers carry
      their wrap-around explicitly ([int64], [uint32]).
    - A finite floating-point value is an exact rational in canonical form
      ([Qc]); rounding is not modelled.  NaN is [None] in a cell of a
      table, and the values that can be infinite live in [fnum].
    - A Python exception is a value of [pyerr]; code that can raise
      returns [res].
    - A DataFrame indexed by [pat_key] with one row per key is a
      [gmap Z _]; a table of records is a list of rows; a column name
      passed as an argument is the projection that reads that column.
    - A global name of the module is read through [load_global]: the
      module binds what its import statements and definitions bind, and
      [import tools.preprocessing as tp] binds [tp] only. *)

From Stdlib Require Import ZArith QArith Qcanon Qround Lqa Lia.
From stdpp Require Import base tactics option list numbers strings pretty sorting gmap.

Local Open Scope Z_scope.

(** ** Python exceptions *)

Inductive pyerr : Type :=
  | KeyError
  | NameError
  | TypeError
  | AttributeError
  | IndexError
  | ValueError
  | AssertionError (msg : string).

Inductive res (A : Type) : Type :=
  | Ok (a : A)
  | Raise (e : pyerr).
Arguments Ok {A} a.
Arguments Raise {A} e.

Definition res_bind {A B} (m : res A) (k : A -> res B) : res B :=
  match m with
  | Ok a => k a
  | Raise e => Raise e
  end.

Fixpoint res_mapM {A B} (f : A -> res B) (l : list A) : res (list B) :=
  match l with
  | [] => Ok []
  | x :: l' =>
      res_bind (f x) (fun y => res_bind (res_mapM f l') (fun ys => Ok (y :: ys)))
  end.

Definition of_option {A} (e : pyerr) (o : option A) : res A :=
  match o with
  | Some a => Ok a
  | None => Raise e
  end.

(** ** Cells of float columns

    [None] is NaN; arithmetic on cells propagates it. *)

Definition cell : Type := option Qc.

Definition cell_add (x y : cell) : cell :=
  match x, y with
  | Some a, Some b => Some (a + b)%Qc
  | _, _ => None
  end.

(** [x <= y] on cells that are both numbers or both NaN. *)
Definition cell_le (x y : cell) : Prop :=
  match x, y with
  | Some a, Some b => (a <= b)%Qc
  | None, None => True
  | _, _ => False
  end.

Definition cell_sub (x y : cell) : cell :=
  match x, y with
  | Some a, Some b => Some (a - b)%Qc
  | _, _ => None
  end.

(** ** Fixed-width NumPy integers *)

Module Np.

(** The value of an integer stored with dtype int64. *)
Definition int64 (z : Z) : Z := (z + 2 ^ 63) mod 2 ^ 64 - 2 ^ 63.

(** The value of an integer stored with dtype uint32; a cast from int64
    keeps the low 32 bits. *)
Definition uint32 (z : Z) : Z := z mod 2 ^ 32.

End Np.

(** ** [get_times] *)

Module GetTimes.

(** A row of the input table: the index key, the feature, and the cells
    of the columns named by [day_col] and [time_col]. *)
Record row : Type := {
  pat_key : Z;
  ftr : string;
  day : Z;
  time : string
}.

(** A row of the output table. *)
Record out_row : Type := {
  o_pat_key : Z;
  o_ftr : string;
  dfi : Z;
  hfi : Z;
  mfi : Z
}.

Section WithPreprocessing.

(** [tools.preprocessing.time_to_hours] and [time_to_minutes]. *)
Variable time_to_hours : string -> Z.
Variable time_to_minutes : string -> Z.

Definition get_times_row (dict : gmap Z Z)
    (day_col : option (row -> Z)) (time_col : option (row -> string))
    (r : row) : res out_row :=
  res_bind (of_option KeyError (dict !! pat_key r)) (fun dfi_orig =>
  match day_col with
  | None =>
      let d := dfi_orig in
      let h := Np.int64 (d * 24) in
      let m := Np.int64 (h * 60) in
      Ok {| o_pat_key := pat_key r; o_ftr := ftr r;
            dfi := d; hfi := h; mfi := m |}
  | Some dc =>
      let d := Np.uint32 (Np.int64 (dfi_orig + dc r)) in
      let h := Np.uint32 (d * 24) in
      let m := Np.uint32 (h * 60) in
      let '(h, m) :=
        match time_col with
        | None => (h, m)
        | Some tc =>
            let hours := Np.uint32 (time_to_hours (tc r)) in
            let mins := Np.uint32 (time_to_minutes (tc r)) in
            (Np.uint32 (h + hours), Np.uint32 (m + mins))
        end in
      Ok {| o_pat_key := pat_key r; o_ftr := ftr r;
            dfi := d; hfi := h; mfi := m |}
  end).

Definition get_times (df : list row) (dict : gmap Z Z)
    (day_col : option (row -> Z)) (time_col : option (row -> string))
    : res (list out_row) :=
  res_mapM (get_times_row dict day_col time_col) df.

End WithPreprocessing.

End GetTimes.

(** ** Python dictionaries

    A [dict] keeps its keys in insertion order; assigning to a key that is
    present replaces the value in place. *)

Module PyDict.

Section Dict.
Context {K V : Type} `{EqDecision K}.

Definition t : Type := list (K * V).

Fixpoint get (d : t) (k : K) : option V :=
  match d with
  | [] => None
  | (k', v) :: d' => if decide (k = k') then Some v else get d' k
  end.

Fixpoint set (d : t) (k : K) (v : V) : t :=
  match d with
  | [] => [(k, v)]
  | (k', v') :: d' =>
      if decide (k = k') then (k', v) :: d' else (k', v') :: set d' k v
  end.

(** [dict(pairs)]. *)
Definition of_pairs (l : list (K * V)) : t :=
  foldl (fun d kv => set d kv.1 kv.2) [] l.

Definition keys (d : t) : list K := d.*1.
Definition values (d : t) : list V := d.*2.
Definition items (d : t) : list (K * V) := d.

(** [d[k]]. *)
Definition getitem (d : t) (k : K) : res V := of_option KeyError (get d k).

End Dict.

Arguments t : clear implicits.

End PyDict.

(** ** The Dask feature pipeline: [parquets_dask] *)

Module Dask.

(** What the pipeline holds for a table: a lazy Dask collection, or the
    [Future] that [Client.compute] returns for one. *)
Inductive obj (A : Type) : Type :=
  | Collection (a : A)
  | Future (a : A).
Arguments Collection {A} a.
Arguments Future {A} a.

(** [client.compute(x)]. *)
Definition compute {A} (x : obj A) : obj A :=
  match x with
  | Collection a => Future a
  | Future a => Future a
  end.

(** [x.result()]: only a [Future] has it. *)
Definition result {A} (x : obj A) : res A :=
  match x with
  | Future a => Ok a
  | Collection _ => Raise AttributeError
  end.

(** [x[col]]: a [Future] is not subscriptable. *)
Definition frame {A} (x : obj A) : res A :=
  match x with
  | Collection a => Ok a
  | Future _ => Raise TypeError
  end.

End Dask.

Module Pipeline.

Import Dask.

(** A row of the visit table [vw_covid_id], indexed by [pat_key]. *)
Record id_row : Type := {
  days_from_index : Z;
  los : Z
}.

(** A row of a feature table, with the cells of the columns passed as
    [day_col] and [time_col]. *)
Record row : Type := {
  pat_key : Z;
  ftr : string;
  day : Z;
  time : string
}.

Record timed_row : Type := {
  t_pat_key : Z;
  t_ftr : string;
  t_agg : cell
}.

Definition day_vals : list Z := [1; 24; 1440].
Definition sec_vals : list Z := [60 * 60 * 24; 60 * 60; 60].
Definition agg_lvls : list string := ["dfi"; "hfi"; "mfi"]%string.

(** ["{:02d}".format(n)] *)
Definition fmt02 (n : nat) : string :=
  let s := pretty n in
  String.concat "" (replicate (2 - String.length s) "0"%string) +:+ s.

(** ["{:02d}:{:02d}:{:02d}".format(a, b, c)] *)
Definition hms (abc : nat * nat * nat) : string :=
  let '(a, b, c) := abc in
  fmt02 a +:+ ":" +:+ fmt02 b +:+ ":" +:+ fmt02 c.

(** [itertools.product] of three lists. *)
Definition product {A B C} (la : list A) (lb : list B) (lc : list C)
    : list (A * B * C) :=
  a ← la; b ← lb; c ← lc; [(a, b, c)].

(** [range(n)] *)
Definition range (n : nat) : list nat := seq 0 n.

Definition time_stamps : list string :=
  hms <$> product (range 24) (range 60) (range 60).

(** The H:M:S lookup table. *)
Definition build_time_dict : PyDict.t string nat :=
  PyDict.of_pairs (zip time_stamps (range (length time_stamps))).

(** The position of a time of day counted in seconds, and counted in
    minutes. *)
Definition second_of_day (h m s : nat) : nat := h * 3600 + m * 60 + s.
Definition minute_of_day (h m s : nat) : nat := h * 60 + m.

(** The frame that [get_visit_timing] returns: one column, indexed by
    [pat_key], with the name that the level had when it was built. *)
Record timing_frame : Type := {
  col_name : string;
  col_vals : gmap Z Z
}.

(** The attributes of a [parquets_dask] object that the timing code
    reads. *)
Record parquets_dask : Type := {
  from_days : PyDict.t string Z;
  from_seconds : PyDict.t string Z;
  agg_level : string;
  visit_timing : obj timing_frame;
  id : obj (gmap Z id_row);
  time_dict : PyDict.t string nat
}.

Definition get_visit_timing (self : parquets_dask)
    (id_table : obj (gmap Z id_row)) : res (obj timing_frame) :=
  res_bind (frame id_table) (fun tbl =>
  res_bind (PyDict.getitem (from_days self) (agg_level self)) (fun mult =>
  Ok (Collection {| col_name := agg_level self;
                    col_vals := (fun r => days_from_index r * mult) <$> tbl |}))).

(** The part of [__init__] from "Quick lookup for multiplier" on;
    [id_table] is the visit table read from parquet. *)
Definition init (id_table : gmap Z id_row) (agg_lvl : string)
    : res parquets_dask :=
  let self0 :=
    {| from_days := PyDict.of_pairs (zip agg_lvls day_vals);
       from_seconds := PyDict.of_pairs (zip agg_lvls sec_vals);
       agg_level := agg_lvl;
       visit_timing := Collection {| col_name := agg_lvl; col_vals := ∅ |};
       id := Collection id_table;
       time_dict := [] |} in
  res_bind (get_visit_timing self0 (id self0)) (fun vt =>
  Ok {| from_days := from_days self0;
        from_seconds := from_seconds self0;
        agg_level := agg_lvl;
        visit_timing := compute vt;
        id := compute (id self0);
        time_dict := build_time_dict |}).

Definition of_int (z : Z) : cell := Some (Qc_of_Z z).

(** [out[name]] on the frame joined with the timing frame: the timing
    column has the name it was built with, and another name is a
    KeyError. *)
Definition timing_column (vt : timing_frame) (name : string) : res unit :=
  if decide (name = col_name vt) then Ok tt else Raise KeyError.

(** [get_timing], one row at a time; the left joins leave NaN for a
    [pat_key] that the joined table lacks, and [Series.map] leaves NaN
    for a string that is not a key of the dictionary.  The timing column
    is read under the name [self.agg_level] wherever it is updated. *)
Definition get_timing_row (self : parquets_dask)
    (day_col : option (row -> Z)) (end_of_visit : bool)
    (time_col : option (row -> string)) (r : row) : res timed_row :=
  res_bind (result (visit_timing self)) (fun vt =>
  let out := from_option of_int None (col_vals vt !! pat_key r) in
  res_bind
    (if end_of_visit then
       res_bind (result (id self)) (fun idt =>
       let los_cell : cell := (fun ir => Qc_of_Z (los ir)) <$> (idt !! pat_key r) in
       res_bind (timing_column vt (agg_level self)) (fun _ =>
       res_bind (PyDict.getitem (from_days self) (agg_level self)) (fun mult =>
       Ok (cell_add out ((fun l => l * Qc_of_Z mult)%Qc <$> los_cell)))))
     else Ok out) (fun out =>
  match day_col with
  | None => Ok {| t_pat_key := pat_key r; t_ftr := ftr r; t_agg := out |}
  | Some dc =>
      res_bind (timing_column vt (agg_level self)) (fun _ =>
      res_bind (PyDict.getitem (from_days self) (agg_level self)) (fun mult =>
      let out := cell_add out (of_int (dc r * mult)) in
      match time_col with
      | None => Ok {| t_pat_key := pat_key r; t_ftr := ftr r; t_agg := out |}
      | Some tc =>
          res_bind (PyDict.getitem (from_seconds self) (agg_level self)) (fun secs =>
          let mapped : cell :=
            (fun v : nat => Qc_of_Z (Z.of_nat v)) <$> PyDict.get (time_dict self) (tc r) in
          let term : cell := (fun v => v / Qc_of_Z secs)%Qc <$> mapped in
          Ok {| t_pat_key := pat_key r; t_ftr := ftr r;
                t_agg := cell_add out term |})
      end))
  end)).

Definition get_timing (self : parquets_dask) (df : list row)
    (day_col : option (row -> Z)) (end_of_visit : bool)
    (time_col : option (row -> string)) : res (list timed_row) :=
  res_mapM (get_timing_row self day_col end_of_visit time_col) df.

(** [reset_agg_level]: the object as the call leaves it, and what the
    call returns or raises. *)
Definition reset_agg_level (self : parquets_dask) (new_level : string)
    : parquets_dask * res unit :=
  let self1 :=
    {| from_days := from_days self;
       from_seconds := from_seconds self;
       agg_level := new_level;
       visit_timing := visit_timing self;
       id := id self;
       time_dict := time_dict self |} in
  match get_visit_timing self1 (id self1) with
  | Ok vt =>
      ({| from_days := from_days self1;
          from_seconds := from_seconds self1;
          agg_level := new_level;
          visit_timing := vt;
          id := id self1;
          time_dict := time_dict self1 |}, Ok tt)
  | Raise e => (self1, Raise e)
  end.

End Pipeline.

(** ** The feature codec: [df_to_features], [col_to_features],
    [condense_features] *)

Module FeatureCodec.

(** A row of an observation table: the index key, the cell of the text
    column (the categorical value, already a string, so that
    [astype(str)] leaves it as it is) and the cell of the numeric
    column. *)
Record row : Type := {
  pat_key : Z;
  text : string;
  num : cell
}.

(** A row after [condense_features]: the text column is dropped and
    [ftr] holds the token, or NaN where [Series.map] found no entry. *)
Record coded_row : Type := {
  c_pat_key : Z;
  c_ftr : option string
}.

(** [Series.unique()]: the distinct values in order of first
    appearance. *)
Fixpoint unique_from (seen : list string) (l : list string) : list string :=
  match l with
  | [] => []
  | x :: l' =>
      if decide (x ∈ seen) then unique_from seen l'
      else x :: unique_from (x :: seen) l'
  end.

Definition unique (l : list string) : list string := unique_from [] l.

(** A token: the prefix of the table followed by an ordinal. *)
Definition token (feature_prefix : string) (i : nat) : string :=
  feature_prefix +:+ pretty i.

Section WithQuantiles.

(** The string of the [q] cell of the row at a position: the bucket
    that [pd.qcut], applied within the group of rows with the same
    text, gives to the row's numeric value, after [astype(str)].
    Arguments: [buckets], the text and numeric columns, the
    position. *)
Variable q_str : nat -> list (string * cell) -> nat -> string.

Definition df_to_features (df : list row)
    (num_col : option (row -> cell)) (buckets : nat) : list row :=
  match num_col with
  | None => df
  | Some nc =>
      let cols := (fun r => (text r, nc r)) <$> df in
      imap (fun i r =>
              {| pat_key := pat_key r;
                 text := text r +:+ " q" +:+ q_str buckets cols i;
                 num := num r |}) df
  end.

Definition col_to_features (text_column : list string)
    (feature_prefix : string) : PyDict.t string string :=
  let unique_codes := unique text_column in
  let n_codes := length unique_codes in
  let ftr_codes :=
    (fun i : nat => String.concat "" [feature_prefix; pretty i]) <$> seq 0 n_codes in
  PyDict.of_pairs (zip ftr_codes unique_codes).

Definition condense_features (df : list row)
    (code_dict : PyDict.t string string) : list coded_row :=
  let inverse : PyDict.t string string :=
    PyDict.of_pairs ((fun kv : string * string => (kv.2, kv.1)) <$> PyDict.items code_dict) in
  (fun r => {| c_pat_key := pat_key r;
               c_ftr := PyDict.get inverse (text r) |}) <$> df.

(** The suffix that [df_to_features] appends to the text of the row
    at position [i]: empty without a numeric column. *)
Definition bucket_suffix (df : list row) (num_col : option (row -> cell))
    (buckets i : nat) : string :=
  match num_col with
  | None => ""
  | Some nc => " q" +:+ q_str buckets ((fun r => (text r, nc r)) <$> df) i
  end.

(** The three steps that [all_df_to_feat] runs on one table. *)
Definition encode_table (df : list row) (feature_prefix : string)
    (num_col : option (row -> cell)) (buckets : nat)
    : list coded_row * PyDict.t string string :=
  let out := df_to_features df num_col buckets in
  let code_dict := col_to_features (text <$> out) feature_prefix in
  (condense_features out code_dict, code_dict).

End WithQuantiles.

End FeatureCodec.

(** ** Floating-point values that can be infinite *)

Module Float.

Inductive fnum : Type :=
  | Fin (x : Qc)
  | PInf
  | NInf
  | NaN.

Definition isinf (x : fnum) : bool :=
  match x with
  | PInf | NInf => true
  | _ => false
  end.

Definition fopp (x : fnum) : fnum :=
  match x with
  | Fin a => Fin (- a)%Qc
  | PInf => NInf
  | NInf => PInf
  | NaN => NaN
  end.

Definition fadd (x y : fnum) : fnum :=
  match x, y with
  | NaN, _ | _, NaN => NaN
  | Fin a, Fin b => Fin (a + b)%Qc
  | PInf, NInf | NInf, PInf => NaN
  | PInf, _ | _, PInf => PInf
  | NInf, _ | _, NInf => NInf
  end.

Definition fsub (x y : fnum) : fnum := fadd x (fopp y).

(** The infinity with the sign of [s], NaN when [s] is zero. *)
Definition signed_inf (s : Qc) : fnum :=
  if decide (s = 0)%Qc then NaN
  else if decide (0 < s)%Qc then PInf else NInf.

Definition fmul (x y : fnum) : fnum :=
  match x, y with
  | NaN, _ | _, NaN => NaN
  | Fin a, Fin b => Fin (a * b)%Qc
  | Fin a, PInf | PInf, Fin a => signed_inf a
  | Fin a, NInf | NInf, Fin a => signed_inf (- a)
  | PInf, PInf | NInf, NInf => PInf
  | PInf, NInf | NInf, PInf => NInf
  end.

(** Division; a zero divisor is taken as positive zero. *)
Definition fdiv (x y : fnum) : fnum :=
  match x, y with
  | NaN, _ | _, NaN => NaN
  | Fin a, Fin b => if decide (b = 0)%Qc then signed_inf a else Fin (a / b)%Qc
  | Fin _, (PInf | NInf) => Fin 0
  | PInf, Fin b => if decide (b < 0)%Qc then NInf else PInf
  | NInf, Fin b => if decide (b < 0)%Qc then PInf else NInf
  | (PInf | NInf), (PInf | NInf) => NaN
  end.

End Float.

(** ** [numpy.nanpercentile]

    The percentile of the values of a column that are not NaN, for the
    five interpolation policies of [numpy.percentile]. *)

Module Numpy.

Import Float.

Inductive interp : Type := Linear | Lower | Higher | Midpoint | Nearest.

Definition parse_interpolation (s : string) : option interp :=
  if decide (s = "linear") then Some Linear
  else if decide (s = "lower") then Some Lower
  else if decide (s = "higher") then Some Higher
  else if decide (s = "midpoint") then Some Midpoint
  else if decide (s = "nearest") then Some Nearest
  else None.

Definition floor (x : Qc) : Z := Qfloor x.
Definition ceil (x : Qc) : Z := Qceiling x.

(** [numpy.around]: to the nearest integer, a tie to the even one. *)
Definition around (x : Qc) : Z :=
  let f := floor x in
  let d := (x - Qc_of_Z f)%Qc in
  if decide (d < 1 / 2)%Qc then f
  else if decide (1 / 2 < d)%Qc then f + 1
  else if Z.even f then f else f + 1.

(** [numpy.take] at a position that is in range. *)
Definition take (ap : list Qc) (i : Z) : Qc :=
  from_option (fun x => x) 0%Qc (ap !! Z.to_nat i).

(** The weighted mean of the two points around a fractional index. *)
Definition interpolate (ap : list Qc) (indices : Qc) : Qc :=
  let Nx := Z.of_nat (length ap) in
  let indices_below := floor indices in
  let indices_above := Z.min (indices_below + 1) (Nx - 1) in
  let weights_above := (indices - Qc_of_Z indices_below)%Qc in
  let weights_below := (1 - weights_above)%Qc in
  (take ap indices_below * weights_below + take ap indices_above * weights_above)%Qc.

(** The quantile [q] (between 0 and 1) of a sorted, non-empty list. *)
Definition quantile (ip : interp) (ap : list Qc) (q : Qc) : Qc :=
  let Nx := Z.of_nat (length ap) in
  let indices := (q * Qc_of_Z (Nx - 1))%Qc in
  match ip with
  | Lower => take ap (floor indices)
  | Higher => take ap (ceil indices)
  | Nearest => take ap (around indices)
  | Midpoint =>
      interpolate ap (1 / 2 * (Qc_of_Z (floor indices) + Qc_of_Z (ceil indices)))%Qc
  | Linear => interpolate ap indices
  end.

(** The values of a column that are not NaN. *)
Definition dropna (col : list cell) : list Qc := omap (fun c => c) col.

(** The quantile of the values that are not NaN; NaN when there are
    none. *)
Definition nanquantile (ip : interp) (col : list cell) (q : Qc) : cell :=
  match dropna col with
  | [] => None
  | vals => Some (quantile ip (merge_sort Qcle vals) q)
  end.

Definition nanpercentile (col : list cell) (q : fnum) (interpolation : string)
    : res cell :=
  match q with
  | Fin q =>
      if decide (0 ≤ q ∧ q ≤ Qc_of_Z 100)%Qc then
        match parse_interpolation interpolation with
        | None => Raise ValueError
        | Some ip => Ok (nanquantile ip col (q / Qc_of_Z 100)%Qc)
        end
      else Raise ValueError
  | _ => Raise ValueError
  end.

(** [nanpercentile] with [q=(lower, upper)]. *)
Definition nanpercentile2 (col : list cell) (q : fnum * fnum)
    (interpolation : string) : res (cell * cell) :=
  res_bind (nanpercentile col q.1 interpolation) (fun l =>
  res_bind (nanpercentile col q.2 interpolation) (fun u => Ok (l, u))).

End Numpy.

(** ** The bootstrap drivers: [jackknife_metrics], [boot_cis], [boot_roc] *)

Module Bootstrap.

Import Float Numpy.

(** The optional arguments of a call of [clf_metrics]; [None] is an
    argument that the call does not pass. *)
Record clf_args : Type := {
  average_by : option (option (list Z));
  weighted : option bool;
  mcnemar : option bool
}.

(** The argument of [np.random.seed]. *)
Inductive seed_arg : Type :=
  | SeedInt (s : Z)
  | SeedArray (s : list Z).

(** The calls of the external services, in the order of the task lists
    handed to the pool. *)
Inductive event : Type :=
  | CallClfMetrics (targets guesses : list Z) (args : clf_args)
  | CallBootSample (targets : list Z) (sample_by : option (list Z)) (seed : Z)
  | CallRocCurve (targets : list Z) (scores : list Qc).

Definition methods : list string := ["pct"; "diff"; "bca"]%string.

Definition matrix : Type := list (list cell).

(** Column [i] of a table whose rows list their cells in column order;
    every call of [clf_metrics] returns the same columns. *)
Definition column (m : matrix) (i : nat) : list cell :=
  (fun r => from_option (fun c => c) None (r !! i)) <$> m.

Definition width (m : matrix) : nat :=
  match m with
  | [] => 0%nat
  | r :: _ => length r
  end.

(** [pd.concat(frames, axis=0)] of one-row frames. *)
Definition pd_concat (frames : list (list cell)) : res matrix :=
  match frames with
  | [] => Raise ValueError
  | _ => Ok frames
  end.

(** [a[idx]] for an index array. *)
Definition np_index {A} (a : list A) (idx : list nat) : res (list A) :=
  res_mapM (fun i => of_option IndexError (a !! i)) idx.

Definition Qc_sum (l : list Qc) : Qc := foldr Qcplus 0%Qc l.

(** [np.sum] of a frame skips NaN. *)
Definition nansum (col : list cell) : Qc := Qc_sum (dropna col).

Definition cell_pow (k : nat) (c : cell) : cell := (fun x => x ^ k)%Qc <$> c.

(** [x < y] on cells: false when either is NaN. *)
Definition cell_lt (x y : cell) : bool :=
  match x, y with
  | Some a, Some b => bool_decide (a < b)%Qc
  | _, _ => false
  end.

Definition hundred : Qc := Qc_of_Z 100.
Definition eps : Qc := Q2Qc (1 # 1000000).

(** The percentile ranks of the "pct" and "diff" methods. *)
Definition lower_rank (a : Qc) : Qc := (a / 2 * hundred)%Qc.
Definition upper_rank (a : Qc) : Qc := (hundred - lower_rank a)%Qc.

(** Method "pct". *)
Definition pct_cis (scores : matrix) (ncols : nat) (a : Qc)
    (interpolation : string) : res (list (cell * cell)) :=
  res_mapM (fun i =>
      nanpercentile2 (column scores i)
        (Fin (lower_rank a), Fin (upper_rank a)) interpolation)
    (seq 0 ncols).

(** Method "diff". *)
Definition diff_cis (stat : list cell) (scores : matrix) (a : Qc)
    (interpolation : string) : res (list (cell * cell)) :=
  res_mapM (fun i =>
      let s := from_option (fun c => c) None (stat !! i) in
      let diffs := (fun c => cell_sub s c) <$> column scores i in
      res_bind
        (nanpercentile2 diffs (Fin (lower_rank a), Fin (upper_rank a)) interpolation)
        (fun p => Ok (cell_add s p.1, cell_add s p.2)))
    (seq 0 (length stat)).

(** The global names that the module binds: the names of its import
    statements (lines 5 to 21) and of its functions and classes.
    [import tools.preprocessing as tp] binds [tp] and nothing else, so
    [tools] is not among them. *)
Definition module_globals : list string :=
  ["pd"; "np"; "pickle"; "product"; "reduce"; "dd"; "distributed";
   "confusion_matrix"; "roc_curve"; "StratifiedKFold"; "cross_val_predict";
   "chi2"; "norm"; "deepcopy"; "Pool"; "tp";
   "get_times"; "jackknife_metrics"; "boot_cis"; "boot_roc";
   "dask_merge_all"; "parquets_dask"]%string.

(** Reading a global name inside a function of the module: NameError for
    a name that the module does not bind (no builtin has the names read
    here). *)
Definition load_global (name : string) : res unit :=
  if decide (name ∈ module_globals) then Ok tt else Raise NameError.

(** [np.random.seed] takes an integer between 0 and 2^32 - 1, or a
    non-empty array of such integers. *)
Definition seed_ok (s : seed_arg) : bool :=
  match s with
  | SeedInt z => bool_decide (0 <= z < 2 ^ 32)
  | SeedArray l =>
      bool_decide (l <> []) && forallb (fun z => bool_decide (0 <= z < 2 ^ 32)) l
  end.

Section Driver.

Context {rng roc : Type}.

(** NumPy's global generator: the state that [np.random.seed] sets,
    and one draw of [np.random.randint(low, high)]. *)
Variable random_seed : seed_arg -> rng.
Variable random_randint : Z -> Z -> rng -> Z * rng.

(** [tools.clf_metrics], [tools.boot_sample] and sklearn's
    [roc_curve]. *)
Variable clf_metrics : list Z -> list Z -> clf_args -> list cell.
Variable boot_sample : list Z -> option (list Z) -> Z -> list nat.
Variable roc_curve : list Z -> list Qc -> roc.

(** [scipy.stats.norm.ppf] and [norm.cdf], and [np.power(x, 3 / 2)]. *)
Variable norm_ppf : fnum -> fnum.
Variable norm_cdf : fnum -> fnum.
Variable power_3_2 : Qc -> Qc.

(** [DataFrame.mean()] on one column, as pandas computes it in double
    precision. *)
Variable frame_mean : list cell -> cell.

(** *** The state that the drivers thread *)

Record world : Type := {
  rng_state : rng;
  trace : list event
}.

Definition M (A : Type) : Type := world -> res A * world.

Definition ret {A} (a : A) : M A := fun w => (Ok a, w).

Definition bind {A B} (m : M A) (k : A -> M B) : M B :=
  fun w =>
    match m w with
    | (Ok a, w') => k a w'
    | (Raise e, w') => (Raise e, w')
    end.

Definition lift {A} (r : res A) : M A := fun w => (r, w).

Fixpoint mapM {A B} (f : A -> M B) (l : list A) : M (list B) :=
  match l with
  | [] => ret []
  | x :: l' => bind (f x) (fun y => bind (mapM f l') (fun ys => ret (y :: ys)))
  end.

Definition emit (e : event) : M unit :=
  fun w => (Ok tt, {| rng_state := rng_state w; trace := trace w ++ [e] |}).

(** [np.random.seed(s)]: ValueError for a seed that is out of range,
    before the state is touched. *)
Definition np_random_seed (s : seed_arg) : M unit :=
  fun w =>
    if seed_ok s then (Ok tt, {| rng_state := random_seed s; trace := trace w |})
    else (Raise ValueError, w).

Fixpoint randint (low high : Z) (size : nat) (g : rng) : list Z * rng :=
  match size with
  | O => ([], g)
  | S k =>
      let '(x, g1) := random_randint low high g in
      let '(xs, g2) := randint low high k g1 in
      (x :: xs, g2)
  end.

(** [np.random.randint(low, high, size)] *)
Definition np_random_randint (low high : Z) (size : nat) : M (list Z) :=
  fun w =>
    let '(xs, g) := randint low high size (rng_state w) in
    (Ok xs, {| rng_state := g; trace := trace w |}).

(** Applying the three services, once the expression that names them
    has been evaluated. *)
Definition apply_clf_metrics (inp : list Z * list Z * clf_args) : M (list cell) :=
  let '(t, g, args) := inp in
  bind (emit (CallClfMetrics t g args)) (fun _ => ret (clf_metrics t g args)).

Definition apply_boot_sample (inp : list Z * option (list Z) * Z) : M (list nat) :=
  let '(t, sample_by, seed) := inp in
  bind (emit (CallBootSample t sample_by seed)) (fun _ =>
  ret (boot_sample t sample_by seed)).

Definition apply_roc_curve (inp : list Z * list Qc) : M roc :=
  let '(t, s) := inp in
  bind (emit (CallRocCurve t s)) (fun _ => ret (roc_curve t s)).

(** [tools.clf_metrics(...)]: the global [tools] is read, then the
    function is applied. *)
Definition call_clf_metrics (inp : list Z * list Z * clf_args) : M (list cell) :=
  bind (lift (load_global "tools")) (fun _ => apply_clf_metrics inp).

(** [p.starmap(f, tasks)]: the expression [f] is evaluated first, which
    reads the global [name], and then [f] is applied to every task, in
    order. *)
Definition pool_starmap {A B} (name : string) (f : A -> M B) (tasks : list A)
    : M (list B) :=
  bind (lift (load_global name)) (fun _ => mapM f tasks).

(** [p.starmap(tools.boot_sample, tasks)] *)
Definition call_boot_sample (tasks : list (list Z * option (list Z) * Z))
    : M (list (list nat)) :=
  pool_starmap "tools" apply_boot_sample tasks.

(** [p.starmap(roc_curve, tasks)] *)
Definition call_roc_curve (tasks : list (list Z * list Qc)) : M (list roc) :=
  pool_starmap "roc_curve" apply_roc_curve tasks.

(** *** [jackknife_metrics] *)

(** The task list of the jackknife: one task per row, without that
    row. *)
Definition jackknife_inputs (targets guesses : list Z)
    (average_by : option (list Z)) (weighted : bool)
    : res (list (list Z * list Z * clf_args)) :=
  let rows := seq 0 (length targets) in
  let j_rows := (fun row => delete row rows) <$> rows in
  res_mapM (fun idx =>
      res_bind (np_index targets idx) (fun t =>
      res_bind (np_index guesses idx) (fun g =>
      Ok (t, g, {| average_by := Some average_by;
                   weighted := Some weighted;
                   mcnemar := None |})))) j_rows.

Definition jackknife_metrics (targets guesses : list Z)
    (average_by : option (list Z)) (weighted : bool)
    : M (matrix * list cell) :=
  bind (lift (jackknife_inputs targets guesses average_by weighted)) (fun inputs =>
  bind (pool_starmap "tools" apply_clf_metrics inputs) (fun stat_list =>
  bind (lift (pd_concat stat_list)) (fun scores =>
  let means := (fun i => frame_mean (column scores i)) <$> seq 0 (width scores) in
  ret (scores, means)))).

(** *** Method "bca", one metric at a time *)

(** The bias correction, with an infinite value replaced by zero. *)
Definition bca_z0 (n : nat) (col : list cell) (stat_val : cell) : fnum :=
  let n_less := length (filter (fun c => cell_lt c stat_val) col) in
  let p_less := fdiv (Fin (Qc_of_Z (Z.of_nat n_less))) (Fin (Qc_of_Z (Z.of_nat n))) in
  let z0 := norm_ppf p_less in
  if isinf z0 then Fin 0 else z0.

(** [j[1] - j[0]] for one metric. *)
Definition jack_diffs (jack_col : list cell) (jack_mean : cell) : list cell :=
  (fun c => cell_sub jack_mean c) <$> jack_col.

Definition bca_numer (diffs : list cell) : Qc := nansum (cell_pow 3 <$> diffs).

Definition bca_denom_raw (diffs : list cell) : Qc :=
  (Qc_of_Z 6 * power_3_2 (nansum (cell_pow 2 <$> diffs)))%Qc.

(** The denominator after "getting rid of 0s". *)
Definition bca_denom (diffs : list cell) : Qc :=
  let denom := bca_denom_raw diffs in
  if decide (denom = 0)%Qc then (denom + eps)%Qc else denom.

Definition bca_acc (diffs : list cell) : fnum :=
  fdiv (Fin (bca_numer diffs)) (Fin (bca_denom diffs)).

(** The adjusted percentile rank for the normal quantile [z]. *)
Definition bca_rank (z0 acc z : fnum) : fnum :=
  let term := fdiv (fadd z0 z) (fsub (Fin 1) (fmul acc (fadd z0 z))) in
  fmul (norm_cdf (fadd z0 term)) (Fin hundred).

Definition bca_ranks (z0 acc : fnum) (a : Qc) : fnum * fnum :=
  let zl := norm_ppf (Fin (a / 2)%Qc) in
  let zu := norm_ppf (Fin (1 - a / 2)%Qc) in
  (bca_rank z0 acc zl, bca_rank z0 acc zu).

(** The bounds of one metric from its bias correction and
    acceleration. *)
Definition bca_ci (col : list cell) (z0 acc : fnum) (a : Qc)
    (interpolation : string) : res (cell * cell) :=
  nanpercentile2 col (bca_ranks z0 acc a) interpolation.

Definition bca_cis (n : nat) (stat : list cell) (scores : matrix)
    (j : matrix * list cell) (a : Qc) (interpolation : string)
    : res (list (cell * cell)) :=
  res_mapM (fun i =>
      let stat_val := from_option (fun c => c) None (stat !! i) in
      let z0 := bca_z0 n (column scores i) stat_val in
      let jack_mean := from_option (fun c => c) None (j.2 !! i) in
      let acc := bca_acc (jack_diffs (column j.1 i) jack_mean) in
      bca_ci (column scores i) z0 acc a interpolation)
    (seq 0 (length stat)).

(** *** [boot_cis] *)

Record boot_cis_obj : Type := {
  cis : list (cell * cell * cell);
  scores : matrix;
  jack : option (matrix * list cell)
}.

Definition check_method (method : string) : res unit :=
  if decide (method ∈ methods) then Ok tt
  else Raise (AssertionError "Method must be pct, diff, or bca.").

(** The arguments of the metric calls, one per bootstrap sample: with
    [average_by] it is resampled too and passed with [weighted]; without
    it only the resampled targets and guesses are passed. *)
Definition metric_inputs (targets guesses : list Z)
    (average_by_arg : option (list Z)) (weighted_arg : bool)
    (boots : list (list nat)) : res (list (list Z * list Z * clf_args)) :=
  res_mapM (fun boot =>
      res_bind (np_index targets boot) (fun t =>
      res_bind (np_index guesses boot) (fun g =>
      match average_by_arg with
      | Some ab =>
          res_bind (np_index ab boot) (fun ab' =>
          Ok (t, g, {| average_by := Some (Some ab');
                       weighted := Some weighted_arg;
                       mcnemar := None |}))
      | None =>
          Ok (t, g, {| average_by := None; weighted := None;
                       mcnemar := None |})
      end))) boots.

(** The first half of [__init__]: the point estimates, the seeds, the
    bootstrap samples and the table of their metrics. *)
Definition bootstrap_scores (targets guesses : list Z)
    (sample_by : option (list Z)) (n : nat)
    (average_by_arg : option (list Z)) (weighted_arg mcnemar_arg : bool)
    (seed : option Z) : M (list cell * matrix) :=
  (* the point estimates *)
  bind (call_clf_metrics (targets, guesses,
          {| average_by := Some average_by_arg;
             weighted := Some weighted_arg;
             mcnemar := Some mcnemar_arg |})) (fun stat =>
  (* setting the seed *)
  bind (match seed with
        | None => bind (np_random_randint 0 1000000 1) (fun s => ret (SeedArray s))
        | Some s => ret (SeedInt s)
        end) (fun seed =>
  bind (np_random_seed seed) (fun _ =>
  bind (np_random_randint 0 1000000 n) (fun seeds =>
  (* the bootstrap samples and their metrics *)
  let boot_input := (fun seed => (targets, sample_by, seed)) <$> seeds in
  bind (call_boot_sample boot_input) (fun boots =>
  bind (lift (metric_inputs targets guesses average_by_arg weighted_arg boots))
    (fun inputs =>
  bind (pool_starmap "tools" apply_clf_metrics inputs) (fun p_output =>
  bind (lift (pd_concat p_output)) (fun scores =>
  ret (stat, scores))))))))).

(** The second half: the method check and the intervals. *)
Definition intervals (targets guesses : list Z) (n : nat) (a : Qc)
    (method interpolation : string) (stat : list cell) (scores : matrix)
    : M boot_cis_obj :=
  (* making sure a valid method was chosen *)
  bind (lift (check_method method)) (fun _ =>
  bind (if decide (method = "pct") then
          bind (lift (pct_cis scores (length stat) a interpolation)) (fun c =>
          ret (c, None))
        else if decide (method = "diff") then
          bind (lift (diff_cis stat scores a interpolation)) (fun c =>
          ret (c, None))
        else
          bind (jackknife_metrics targets guesses None true) (fun j =>
          bind (lift (bca_cis n stat scores j a interpolation)) (fun c =>
          ret (c, Some j)))) (fun '(c, j) =>
  ret {| cis := zip_with (fun s lu => (s, lu.1, lu.2)) stat c;
         scores := scores;
         jack := j |})).

Definition boot_cis (targets guesses : list Z) (sample_by : option (list Z))
    (n : nat) (a : Qc) (method interpolation : string)
    (average_by_arg : option (list Z)) (weighted_arg mcnemar_arg : bool)
    (seed : option Z) : M boot_cis_obj :=
  bind (bootstrap_scores targets guesses sample_by n average_by_arg
          weighted_arg mcnemar_arg seed) (fun '(stat, scores) =>
  intervals targets guesses n a method interpolation stat scores).

(** *** [boot_roc] *)

Definition boot_roc (targets : list Z) (scores : list Qc)
    (sample_by : option (list Z)) (n : nat) (seed : Z) : M (list roc) :=
  bind (np_random_seed (SeedInt seed)) (fun _ =>
  bind (np_random_randint 1 10000000 n) (fun seeds =>
  let boot_input := (fun seed => (targets, sample_by, seed)) <$> seeds in
  bind (call_boot_sample boot_input) (fun boots =>
  bind (lift (res_mapM (fun boot =>
          res_bind (np_index targets boot) (fun t =>
          res_bind (np_index scores boot) (fun s => Ok (t, s)))) boots))
    (fun roc_input =>
  call_roc_curve roc_input)))).

(** Running a driver from a generator state, with an empty trace. *)
Definition run {A} (m : M A) (g : rng) : res A * world :=
  m {| rng_state := g; trace := [] |}.

End Driver.

End Bootstrap.

(** ** The tables of a run: [compute_kwargs] and [all_df_to_feat] *)

Module FeatureMerge.

Import FeatureCodec.

Definition final_names : list string :=
  ["vitals"; "bill"; "gen_lab"; "proc"; "diag"; "lab_res"]%string.

Definition feat_prefix : list string :=
  ["vtl"; "bill"; "genl"; "proc"; "dx"; "lbrs"]%string.

Definition time_cols : list (option (list string)) :=
  [Some ["observation_day_number"; "observation_time_of_day"];
   Some ["serv_day"];
   Some ["collection_day_number"; "collection_time_of_day"];
   Some ["proc_day"];
   None;
   Some ["spec_day_number"; "spec_time_of_day"]]%string.

Definition text_cols : list string :=
  ["lab_test"; "std_chg_desc"; "lab_test_loinc_desc"; "icd_code"; "icd_code";
   "text"]%string.

Definition num_col : list (option string) :=
  [Some "test_result_numeric_value"; None; Some "numeric_value"; None; None;
   None]%string.

(** The arguments of [df_to_features] for one table. *)
Record kwargs : Type := {
  df : list row;
  text_col : string;
  feature_prefix : string;
  kw_num_col : option string;
  kw_time_cols : option (list string)
}.

(** [zip] of five lists: as long as the shortest. *)
Fixpoint zip5 {A B C D E} (la : list A) (lb : list B) (lc : list C)
    (ld : list D) (le : list E) : list (A * B * C * D * E) :=
  match la, lb, lc, ld, le with
  | a :: la, b :: lb, c :: lc, d :: ld, e :: le =>
      (a, b, c, d, e) :: zip5 la lb lc ld le
  | _, _, _, _, _ => []
  end.

(** [compute_kwargs], from the six concatenated tables. *)
Definition compute_kwargs (vitals bill genlab proc diag lab_res : list row)
    : list kwargs :=
  (fun a : list row * string * string * option string * option (list string) =>
     let '(d, t, p, n, tc) := a in
     {| df := d; text_col := t; feature_prefix := p; kw_num_col := n;
        kw_time_cols := tc |})
    <$> zip5 [vitals; bill; genlab; proc; diag; lab_res] text_cols feat_prefix
             num_col time_cols.

(** Modelled from the spec: [tools.preprocessing.flatten] is not part of
    the source file; the design document has the per-table dictionaries
    merged into one dictionary in which a later table's entry replaces an
    earlier one with the same token, so [flatten] is taken to chain the
    lists it is given, in order. *)
Definition flatten {A} (ls : list (list A)) : list A := concat ls.

Section WithQuantiles.

Variable q_str : nat -> list (string * cell) -> nat -> string.

(** The numeric column of a table that has one. *)
Definition num_col_of (kw : kwargs) : option (row -> cell) :=
  match kw_num_col kw with
  | Some _ => Some num
  | None => None
  end.

(** [all_df_to_feat] without the pickle file: the coded tables under their
    final names, and the merged dictionary.  [df_to_features] is called
    with its default of five buckets. *)
Definition all_df_to_feat (df_kwargs : list kwargs)
    : PyDict.t string (list coded_row) * PyDict.t string string :=
  let out := (fun kw => df_to_features q_str (df kw) (num_col_of kw) 5) <$> df_kwargs in
  let code_dicts :=
    (fun ab : list row * kwargs =>
       col_to_features (text <$> ab.1) (feature_prefix ab.2))
      <$> zip out df_kwargs in
  let out :=
    (fun ab : list row * PyDict.t string string => condense_features ab.1 ab.2)
      <$> zip out code_dicts in
  let ftr_dict :=
    PyDict.of_pairs
      (zip (flatten (PyDict.keys <$> code_dicts))
           (flatten (PyDict.values <$> code_dicts))) in
  (PyDict.of_pairs (zip final_names out), ftr_dict).

End WithQuantiles.

End FeatureMerge.

(** ** Concrete inputs and instances of the external services

    Used to run the definitions above. *)

Module Examples.

Definition times_dict : gmap Z Z := {[ 7 := 0 ]}.
Definition times_row : GetTimes.row :=
  {| GetTimes.pat_key := 7; GetTimes.ftr := "vtl0";
     GetTimes.day := -1; GetTimes.time := "" |}.


(** One visit with index offset 2 and a stay of 4 days, and a record of
    it on day 1 at one minute past midnight. *)
Definition visits : gmap Z Pipeline.id_row :=
  {[ 7 := {| Pipeline.days_from_index := 2; Pipeline.los := 4 |} ]}.
Definition record : Pipeline.row :=
  {| Pipeline.pat_key := 7; Pipeline.ftr := "vtl0";
     Pipeline.day := 1; Pipeline.time := "00:01:00" |}.






Definition no_roc (_ : list Z) (_ : list Qc) : unit := tt.


(** The quantile function and the distribution function of the uniform
    distribution on [-1/2, 1/2], with the infinite end points that the
    normal quantile function has. *)
Definition uniform_ppf (p : Float.fnum) : Float.fnum :=
  match p with
  | Float.Fin p =>
      if decide (p = 0)%Qc then Float.NInf
      else if decide (p = 1)%Qc then Float.PInf
      else if decide (0 < p ∧ p < 1)%Qc then Float.Fin (p - 1 / 2)%Qc
      else Float.NaN
  | _ => Float.NaN
  end.

Definition uniform_cdf (z : Float.fnum) : Float.fnum :=
  match z with
  | Float.Fin z =>
      if decide (z < - (1 / 2))%Qc then Float.Fin 0
      else if decide (1 / 2 < z)%Qc then Float.Fin 1
      else Float.Fin (z + 1 / 2)%Qc
  | Float.PInf => Float.Fin 1
  | Float.NInf => Float.Fin 0
  | Float.NaN => Float.NaN
  end.

(** A rational value near x^(3/2): x times the integer square root of x
    taken at six decimal places. *)
Definition approx_power_3_2 (x : Qc) : Qc :=
  (x * Q2Qc (Z.sqrt (Qfloor (x * Qc_of_Z 1000000000000)) # 1000000))%Qc.

Definition targets5 : list Z := [1; 0; 1; 1; 0].
Definition guesses5 : list Z := [1; 0; 0; 1; 0].


(** Five bootstrap values of one metric, and two significance levels. *)
Definition scores5 : Bootstrap.matrix :=
  [[Some (Qc_of_Z 0)]; [Some (Qc_of_Z 1)]; [Some (Qc_of_Z 2)];
   [Some (Qc_of_Z 3)]; [Some (Qc_of_Z 4)]].
Definition quarter : Qc := Q2Qc (1 # 4).
Definition half : Qc := Q2Qc (1 # 2).


(** A table of two records of visit 7 and one of a visit that the
    dictionary lacks, and times of day as hours and minutes. *)
Definition times_dict2 : gmap Z Z := {[ 7 := 3 ]}.
Definition times_known : GetTimes.row :=
  {| GetTimes.pat_key := 7; GetTimes.ftr := "vtl1";
     GetTimes.day := 2; GetTimes.time := "01:30:00" |}.
Definition times_unknown : GetTimes.row :=
  {| GetTimes.pat_key := 8; GetTimes.ftr := "vtl2";
     GetTimes.day := 0; GetTimes.time := "00:00:00" |}.
Definition one_hour (_ : string) : Z := 1.
Definition ninety_minutes (_ : string) : Z := 90.


(** A record of a visit that the visit table lacks, a record whose time
    of day is not zero-padded, and a later record of visit 7. *)
Definition record_unknown : Pipeline.row :=
  {| Pipeline.pat_key := 8; Pipeline.ftr := "vtl0";
     Pipeline.day := 1; Pipeline.time := "00:01:00" |}.
Definition record_unpadded : Pipeline.row :=
  {| Pipeline.pat_key := 7; Pipeline.ftr := "vtl0";
     Pipeline.day := 1; Pipeline.time := "1:02:03" |}.
Definition record_later : Pipeline.row :=
  {| Pipeline.pat_key := 7; Pipeline.ftr := "vtl3";
     Pipeline.day := 1; Pipeline.time := "00:01:01" |}.


(** Two small observation tables, and a dictionary that lacks a text. *)
Definition labs : list FeatureCodec.row :=
  [{| FeatureCodec.pat_key := 7; FeatureCodec.text := "glucose";
      FeatureCodec.num := Some (Qc_of_Z 5) |};
   {| FeatureCodec.pat_key := 7; FeatureCodec.text := "sodium";
      FeatureCodec.num := None |}].
Definition bills : list FeatureCodec.row :=
  [{| FeatureCodec.pat_key := 7; FeatureCodec.text := "bed";
      FeatureCodec.num := None |}].
Definition no_buckets (_ : nat) (_ : list (string * cell)) (_ : nat) : string := "0.0".
Definition labs_kw (prefix : string) : FeatureMerge.kwargs :=
  {| FeatureMerge.df := labs; FeatureMerge.text_col := "lab_test";
     FeatureMerge.feature_prefix := prefix; FeatureMerge.kw_num_col := None;
     FeatureMerge.kw_time_cols := None |}.
Definition bills_kw (prefix : string) : FeatureMerge.kwargs :=
  {| FeatureMerge.df := bills; FeatureMerge.text_col := "std_chg_desc";
     FeatureMerge.feature_prefix := prefix; FeatureMerge.kw_num_col := None;
     FeatureMerge.kw_time_cols := None |}.
Definition partial_dict : PyDict.t string string :=
  [("lab0", "glucose")]%string.

End Examples.

(** * Properties *)

(** ** Fixed-width integers *)

Section NpFacts.

Import Np.

Lemma uint32_range z : 0 <= uint32 z < 2 ^ 32.
Proof. unfold uint32. apply Z.mod_pos_bound. lia. Qed.

Lemma uint32_int64 z : uint32 (int64 z) = uint32 z.
Proof.
  unfold uint32, int64.
  rewrite (Z.mod_eq (z + 2 ^ 63) (2 ^ 64)) by lia.
  set (k := (z + 2 ^ 63) / 2 ^ 64).
  replace (z + 2 ^ 63 - 2 ^ 64 * k - 2 ^ 63) with (z + (- (2 ^ 32 * k)) * 2 ^ 32).
  - apply Z_mod_plus_full.
  - replace (2 ^ 64) with (2 ^ 32 * 2 ^ 32) by reflexivity. ring.
Qed.

Lemma uint32_mul_r z k : uint32 (uint32 z * k) = uint32 (z * k).
Proof. unfold uint32. rewrite Z.mul_mod_idemp_l by lia. reflexivity. Qed.

End NpFacts.

(** ** [get_times] *)

Section GetTimesFacts.

Import GetTimes.

(** C10, as the code has it.  With a day column and no time column, the
    day value of a row is the sum of the entity's index offset and the
    record's day offset reduced modulo 2^32, so a negative sum (down to
    -2^32) is stored as the sum plus 2^32, without an error; the hour
    value is 24 times the stored day value reduced modulo 2^32 again,
    and the minute value is 1440 times it reduced modulo 2^32. *)
Theorem get_times_wraps_uint32
    (tth ttm : string -> Z) (dict : gmap Z Z) (dc : row -> Z) (r : row)
    (idx : Z) (Hidx : dict !! pat_key r = Some idx) :
  exists o,
    get_times_row tth ttm dict (Some dc) None r = Ok o
    /\ 0 <= dfi o < 2 ^ 32
    /\ dfi o = (idx + dc r) mod 2 ^ 32
    /\ (- 2 ^ 32 <= idx + dc r < 0 -> dfi o = idx + dc r + 2 ^ 32)
    /\ hfi o = (24 * dfi o) mod 2 ^ 32
    /\ mfi o = (1440 * dfi o) mod 2 ^ 32.
Proof.
  unfold get_times_row. rewrite Hidx. simpl.
  eexists. split; [reflexivity |]. simpl.
  rewrite uint32_int64.
  split; [apply uint32_range |].
  split; [reflexivity |].
  split.
  - intros Hneg. unfold Np.uint32.
    rewrite <- (Z_mod_plus_full (idx + dc r) 1 (2 ^ 32)).
    apply Z.mod_small. lia.
  - split.
    + unfold Np.uint32 at 1. f_equal. lia.
    + rewrite uint32_mul_r. unfold Np.uint32 at 1. f_equal. lia.
Qed.

Lemma get_times_wraps_uint32_witness :
  exists o,
    get_times_row (fun _ => 0) (fun _ => 0) Examples.times_dict (Some day) None Examples.times_row = Ok o
    /\ 0 <= dfi o < 2 ^ 32
    /\ dfi o = (0 + day Examples.times_row) mod 2 ^ 32
    /\ (- 2 ^ 32 <= 0 + day Examples.times_row < 0 -> dfi o = 0 + day Examples.times_row + 2 ^ 32)
    /\ hfi o = (24 * dfi o) mod 2 ^ 32
    /\ mfi o = (1440 * dfi o) mod 2 ^ 32.
Proof.
  apply (get_times_wraps_uint32 (fun _ => 0) (fun _ => 0) Examples.times_dict day Examples.times_row 0).
  reflexivity.
Defined.

(** C10 as stated fails: for the record one day before the index event
    the stored day value is 4294967295, and the hour and minute values
    are not 24 and 1440 times that value. *)
Lemma get_times_hours_not_24x :
  exists o,
    get_times (fun _ => 0) (fun _ => 0) [Examples.times_row] Examples.times_dict (Some day) None = Ok [o]
    /\ dfi o = 4294967295
    /\ hfi o = 4294967272
    /\ mfi o = 4294965856
    /\ hfi o <> 24 * dfi o
    /\ mfi o <> 1440 * dfi o.
Proof.
  eexists. split; [vm_compute; reflexivity |].
  simpl. repeat split; discriminate.
Qed.

End GetTimesFacts.

(** ** Python dictionaries *)

Section PyDictFacts.

Context {K V : Type} `{EqDecision K}.
Implicit Types (d l : list (K * V)) (k : K) (v : V).

Lemma set_fresh d k v : k ∉ d.*1 -> PyDict.set d k v = d ++ [(k, v)].
Proof.
  induction d as [| [k' v'] d IH]; simpl; intros Hk; [reflexivity |].
  rewrite not_elem_of_cons in Hk. destruct Hk as [Hne Hk].
  destruct (decide (k = k')); [contradiction |].
  by rewrite IH.
Qed.

Lemma foldl_set_nodup l acc :
  NoDup (acc ++ l).*1 ->
  foldl (fun d kv => PyDict.set d kv.1 kv.2) acc l = acc ++ l.
Proof.
  revert acc. induction l as [| [k v] l IH]; intros acc Hnd; simpl.
  - by rewrite app_nil_r.
  - assert (Hfresh : k ∉ acc.*1).
    { rewrite fmap_app in Hnd. apply NoDup_app in Hnd as (_ & Hdisj & _).
      intros Hin. apply (Hdisj k Hin). simpl. left. }
    rewrite set_fresh by done.
    rewrite IH; rewrite <- app_assoc; done.
Qed.

(** A list of pairs with distinct keys is its own dictionary. *)
Lemma of_pairs_nodup l : NoDup l.*1 -> PyDict.of_pairs l = l.
Proof. intros Hnd. unfold PyDict.of_pairs. by rewrite foldl_set_nodup. Qed.

Lemma get_lookup l i k v :
  NoDup l.*1 -> l !! i = Some (k, v) -> PyDict.get l k = Some v.
Proof.
  revert i. induction l as [| [k' v'] l IH]; intros i Hnd Hi; [done |].
  simpl. apply NoDup_cons in Hnd as [Hnotin Hnd].
  destruct i as [| i]; simpl in Hi.
  - injection Hi as -> ->. by rewrite decide_True.
  - destruct (decide (k = k')) as [-> |].
    + exfalso. apply Hnotin. apply list_elem_of_fmap.
      exists (k', v). split; [done |]. by eapply list_elem_of_lookup_2.
    + by eapply IH.
Qed.

Lemma get_Some_elem d k v : PyDict.get d k = Some v -> (k, v) ∈ d.
Proof.
  induction d as [| [k' v'] d IH]; simpl; [done |].
  destruct (decide (k = k')) as [-> |].
  - intros [= ->]. left.
  - intros Hg. right. by apply IH.
Qed.

(** [dict(zip(keys, values))] for distinct keys: the key at a position
    is mapped to the value at that position. *)
Lemma get_of_pairs_zip (ks : list K) (vs : list V) i k v :
  NoDup ks -> length ks = length vs ->
  ks !! i = Some k -> vs !! i = Some v ->
  PyDict.get (PyDict.of_pairs (zip ks vs)) k = Some v.
Proof.
  intros Hnd Hlen Hk Hv.
  assert (Hfst : (zip ks vs).*1 = ks) by (apply fst_zip; lia).
  rewrite of_pairs_nodup by (by rewrite Hfst).
  apply (get_lookup _ i); [by rewrite Hfst |].
  by apply lookup_zip_Some.
Qed.

End PyDictFacts.

(** ** The H:M:S lookup table *)

Section TimeDictFacts.

Import Pipeline.
Local Open Scope nat_scope.

Lemma bind_length_const {A B} (f : A -> list B) (l : list A) k :
  (forall a, length (f a) = k) -> length (l ≫= f) = length l * k.
Proof.
  intros Hk. induction l as [| a l IH]; [done |].
  rewrite bind_cons, length_app, Hk, IH. simpl. lia.
Qed.

Lemma lookup_bind_block {A B} (f : A -> list B) (l : list A) k i j x :
  (forall a, length (f a) = k) -> l !! i = Some x -> j < k ->
  (l ≫= f) !! (i * k + j) = f x !! j.
Proof.
  intros Hk. revert i. induction l as [| a l IH]; intros i Hi Hj; [done |].
  rewrite bind_cons. destruct i as [| i]; simpl in Hi.
  - injection Hi as ->. simpl. apply lookup_app_l. by rewrite Hk.
  - rewrite lookup_app_r by (rewrite Hk; simpl; lia).
    rewrite Hk. replace (S i * k + j - k) with (i * k + j) by (simpl; lia).
    by apply IH.
Qed.

Lemma product_lookup h m s :
  h < 24 -> m < 60 -> s < 60 ->
  product (range 24) (range 60) (range 60) !! second_of_day h m s = Some (h, m, s).
Proof.
  intros Hh Hm Hs. unfold product, second_of_day, range.
  assert (Hin : forall a b : nat,
             length (seq 0 60 ≫= (fun c => [(a, b, c)])) = 60).
  { intros a b. rewrite (bind_length_const _ _ 1) by done.
    rewrite length_seq. lia. }
  assert (Hmid : forall a : nat,
             length (seq 0 60 ≫= (fun b => seq 0 60 ≫= (fun c => [(a, b, c)]))) = 3600).
  { intros a. rewrite (bind_length_const _ _ 60) by (intros; apply Hin).
    rewrite length_seq. lia. }
  rewrite <- Nat.add_assoc.
  rewrite (lookup_bind_block _ _ 3600 h (m * 60 + s) h Hmid);
    [| by apply lookup_seq_lt | lia].
  rewrite (lookup_bind_block _ _ 60 m s m (Hin h));
    [| by apply lookup_seq_lt | lia].
  replace s with (s * 1 + 0) at 1 by lia.
  rewrite (lookup_bind_block _ _ 1 s 0 s); [done | done | | lia].
  by apply lookup_seq_lt.
Qed.

Lemma time_stamps_length : length time_stamps = (24 * 3600).
Proof.
  unfold time_stamps, product, range. rewrite length_fmap.
  rewrite (bind_length_const _ _ 3600), length_seq; [done |].
  intros a. rewrite (bind_length_const _ _ 60), length_seq; [done |].
  intros b. rewrite (bind_length_const _ _ 1), length_seq; done.
Qed.

Lemma time_stamps_lookup h m s :
  h < 24 -> m < 60 -> s < 60 ->
  time_stamps !! second_of_day h m s = Some (hms (h, m, s)).
Proof.
  intros. unfold time_stamps. rewrite list_lookup_fmap, product_lookup by done.
  done.
Qed.

Lemma fmt02_length n : n < 60 -> String.length (fmt02 n) = 2.
Proof.
  intros Hn.
  assert (Hall : Forall (fun n => String.length (fmt02 n) = 2) (seq 0 60)).
  { apply (bool_decide_unpack _). vm_compute. exact I. }
  rewrite Forall_forall in Hall. apply Hall, elem_of_seq. lia.
Qed.

Lemma fmt02_inj a b : a < 60 -> b < 60 -> fmt02 a = fmt02 b -> a = b.
Proof.
  intros Ha Hb.
  assert (Hall : Forall (fun a => Forall (fun b => fmt02 a = fmt02 b -> a = b)
                                    (seq 0 60)) (seq 0 60)).
  { apply (bool_decide_unpack _). vm_compute. exact I. }
  rewrite Forall_forall in Hall.
  specialize (Hall a). rewrite Forall_forall in Hall.
  apply Hall; apply elem_of_seq; lia.
Qed.

Lemma append_inj_length s1 s1' t t' :
  String.length s1 = String.length s1' ->
  s1 +:+ t = s1' +:+ t' -> s1 = s1' /\ t = t'.
Proof.
  revert s1'. induction s1 as [| c s1 IH]; intros [| c' s1']; simpl;
    try discriminate.
  - done.
  - intros [= Hlen]. unfold String.append; fold String.append.
    intros [= -> Heq]. destruct (IH _ Hlen Heq) as [-> ->]. done.
Qed.

Lemma hms_inj h m s h' m' s' :
  h < 60 -> m < 60 -> s < 60 -> h' < 60 -> m' < 60 -> s' < 60 ->
  hms (h, m, s) = hms (h', m', s') -> (h, m, s) = (h', m', s').
Proof.
  intros Hh Hm Hs Hh' Hm' Hs'. unfold hms. intros Heq.
  apply append_inj_length in Heq as [Hfh Heq];
    [| by rewrite !fmt02_length].
  apply (append_inj_length ":" ":") in Heq as [_ Heq]; [| done].
  apply append_inj_length in Heq as [Hfm Heq];
    [| by rewrite !fmt02_length].
  apply (append_inj_length ":" ":") in Heq as [_ Hfs]; [| done].
  apply fmt02_inj in Hfh, Hfm, Hfs; try done. by subst.
Qed.

Lemma time_stamps_index i :
  i < (24 * 3600) ->
  exists h m s, h < 24 /\ m < 60 /\ s < 60 /\ i = second_of_day h m s.
Proof.
  intros Hi. exists (i / 3600), (i mod 3600 / 60), (i mod 60).
  unfold second_of_day.
  pose proof (Nat.div_mod_eq i 3600).
  pose proof (Nat.div_mod_eq (i mod 3600) 60).
  pose proof (Nat.mod_upper_bound i 3600).
  pose proof (Nat.mod_upper_bound (i mod 3600) 60).
  assert (Hmm : i mod 3600 mod 60 = i mod 60).
  { replace 3600 with (60 * 60) by done.
    rewrite Nat.Div0.mod_mul_r.
    rewrite Nat.mul_comm, Nat.Div0.mod_add. apply Nat.Div0.mod_mod. }
  rewrite Hmm in *.
  assert (i / 3600 < 24) by (apply Nat.Div0.div_lt_upper_bound; lia).
  assert (i mod 3600 / 60 < 60) by (apply Nat.Div0.div_lt_upper_bound; lia).
  lia.
Qed.

Lemma second_of_day_inj h m s h' m' s' :
  m < 60 -> s < 60 -> m' < 60 -> s' < 60 ->
  (h, m, s) = (h', m', s') -> second_of_day h m s = second_of_day h' m' s'.
Proof. by intros ???? [= -> -> ->]. Qed.

Lemma time_stamps_nodup : NoDup time_stamps.
Proof.
  apply NoDup_alt. intros i j x Hi Hj.
  pose proof (lookup_lt_Some _ _ _ Hi) as Hil.
  pose proof (lookup_lt_Some _ _ _ Hj) as Hjl.
  rewrite time_stamps_length in Hil, Hjl.
  destruct (time_stamps_index i Hil) as (h & m & s & Hh & Hm & Hs & ->).
  destruct (time_stamps_index j Hjl) as (h' & m' & s' & Hh' & Hm' & Hs' & ->).
  rewrite time_stamps_lookup in Hi, Hj by done.
  assert (Heq : hms (h, m, s) = hms (h', m', s')) by congruence.
  apply hms_inj in Heq; [| lia ..].
  by apply second_of_day_inj.
Qed.

(** The table maps a zero-padded H:M:S string to the position of that
    second in the day. *)
Lemma time_dict_lookup h m s :
  h < 24 -> m < 60 -> s < 60 ->
  PyDict.get build_time_dict (hms (h, m, s)) = Some (second_of_day h m s).
Proof.
  intros Hh Hm Hs. unfold build_time_dict, range.
  apply (get_of_pairs_zip _ _ (second_of_day h m s)).
  - apply time_stamps_nodup.
  - by rewrite length_seq.
  - by apply time_stamps_lookup.
  - rewrite lookup_seq_lt; [done |].
    rewrite time_stamps_length. unfold second_of_day. lia.
Qed.

End TimeDictFacts.

(** ** The temporal aligner *)

Section PipelineFacts.

Import Dask Pipeline.

Lemma from_days_levels agg :
  agg ∈ agg_lvls ->
  exists mult,
    PyDict.get (PyDict.of_pairs (zip agg_lvls day_vals)) agg = Some mult
    /\ (agg = "dfi" /\ mult = 1 \/ agg = "hfi" /\ mult = 24
        \/ agg = "mfi" /\ mult = 1440).
Proof.
  unfold agg_lvls. rewrite !elem_of_cons, elem_of_nil.
  intros [-> | [-> | [-> | []]]]; eexists; (split; [reflexivity |]); auto.
Qed.

Lemma from_seconds_levels agg :
  agg ∈ agg_lvls ->
  exists secs,
    PyDict.get (PyDict.of_pairs (zip agg_lvls sec_vals)) agg = Some secs
    /\ (agg = "dfi" /\ secs = 86400 \/ agg = "hfi" /\ secs = 3600
        \/ agg = "mfi" /\ secs = 60).
Proof.
  unfold agg_lvls. rewrite !elem_of_cons, elem_of_nil.
  intros [-> | [-> | [-> | []]]]; eexists; (split; [reflexivity |]); auto.
Qed.

(** What [__init__] leaves in the object for a valid level. *)
Lemma init_ok id_table agg :
  agg ∈ agg_lvls ->
  exists mult,
    PyDict.get (PyDict.of_pairs (zip agg_lvls day_vals)) agg = Some mult
    /\ init id_table agg =
       Ok {| from_days := PyDict.of_pairs (zip agg_lvls day_vals);
             from_seconds := PyDict.of_pairs (zip agg_lvls sec_vals);
             agg_level := agg;
             visit_timing :=
               Future {| col_name := agg;
                         col_vals := (fun r => days_from_index r * mult) <$> id_table |};
             id := Future id_table;
             time_dict := build_time_dict |}.
Proof.
  intros Hagg. destruct (from_days_levels agg Hagg) as (mult & Hget & _).
  exists mult. split; [done |].
  unfold init, get_visit_timing, PyDict.getitem.
  cbn -[PyDict.of_pairs build_time_dict] in Hget |- *.
  rewrite Hget. reflexivity.
Qed.

(** [get_timing] with a day column only, on any object whose lookups
    succeed. *)
Lemma get_timing_row_day
    (self : parquets_dask) (dc : row -> Z) (r : row) (vt : timing_frame)
    (mult : Z) :
  visit_timing self = Future vt ->
  col_name vt = agg_level self ->
  PyDict.get (from_days self) (agg_level self) = Some mult ->
  get_timing_row self (Some dc) false None r =
  Ok {| t_pat_key := pat_key r; t_ftr := ftr r;
        t_agg := cell_add (from_option of_int None (col_vals vt !! pat_key r))
                          (of_int (dc r * mult)) |}.
Proof.
  intros Hvt Hcol Hdays. unfold get_timing_row, PyDict.getitem, timing_column.
  rewrite Hvt, Hdays. cbn [result res_bind].
  rewrite decide_True by done. reflexivity.
Qed.

(** C7.  After [__init__] at a level of "dfi", "hfi", "mfi", for a record
    of a visit that the visit table holds, [get_timing] with a day
    column, without visit-end anchoring and without a time column gives
    the timeline value (index day offset + record day offset) times the
    multiplier of the level (1, 24, 1440).  In particular index offset 0
    at level "dfi" gives the record's day offset itself, and index offset
    2 with day offset 1 at level "hfi" gives 72. *)
Theorem timing_from_index_and_day
    (id_table : gmap Z id_row) (agg : string) (dc : row -> Z) (r : row)
    (ir : id_row)
    (Hagg : agg ∈ agg_lvls) (Hir : id_table !! pat_key r = Some ir) :
  exists self mult,
    init id_table agg = Ok self
    /\ PyDict.get (from_days self) agg = Some mult
    /\ (agg = "dfi" /\ mult = 1 \/ agg = "hfi" /\ mult = 24
        \/ agg = "mfi" /\ mult = 1440)
    /\ get_timing_row self (Some dc) false None r =
       Ok {| t_pat_key := pat_key r; t_ftr := ftr r;
             t_agg := Some (Qc_of_Z ((days_from_index ir + dc r) * mult)) |}
    /\ (agg = "dfi" -> days_from_index ir = 0 ->
        get_timing_row self (Some dc) false None r =
        Ok {| t_pat_key := pat_key r; t_ftr := ftr r;
              t_agg := Some (Qc_of_Z (dc r)) |})
    /\ (agg = "hfi" -> days_from_index ir = 2 -> dc r = 1 ->
        get_timing_row self (Some dc) false None r =
        Ok {| t_pat_key := pat_key r; t_ftr := ftr r;
              t_agg := Some (Qc_of_Z 72) |}).
Proof.
  destruct (init_ok id_table agg Hagg) as (mult & Hget & Hinit).
  destruct (from_days_levels agg Hagg) as (mult' & Hget' & Hcases).
  assert (mult' = mult) as -> by congruence. clear Hget'.
  match type of Hinit with _ = Ok ?s => set (self := s) in * end.
  assert (Hrow : get_timing_row self (Some dc) false None r =
          Ok {| t_pat_key := pat_key r; t_ftr := ftr r;
                t_agg := Some (Qc_of_Z ((days_from_index ir + dc r) * mult)) |}).
  { rewrite (get_timing_row_day self dc r
               {| col_name := agg;
                  col_vals := (fun r => days_from_index r * mult) <$> id_table |}
               mult);
      [| reflexivity | reflexivity | exact Hget].
    cbn [col_vals]. rewrite lookup_fmap, Hir. cbn.
    do 3 f_equal. rewrite <- Z2Qc_inj_add. f_equal. ring. }
  exists self, mult.
  split; [exact Hinit |]. split; [exact Hget |]. split; [exact Hcases |].
  split; [exact Hrow |]. split.
  - intros Hlvl Hz. rewrite Hrow, Hz.
    destruct Hcases as [[_ ->] | [[? _] | [? _]]]; try congruence.
    do 4 f_equal. lia.
  - intros Hlvl Hz Hd. rewrite Hrow, Hz, Hd.
    destruct Hcases as [[? _] | [[_ ->] | [? _]]]; try congruence.
    reflexivity.
Qed.

Lemma timing_from_index_and_day_witness :
  exists self mult,
    init Examples.visits "hfi" = Ok self
    /\ PyDict.get (from_days self) "hfi" = Some mult
    /\ ("hfi" = "dfi" /\ mult = 1 \/ "hfi" = "hfi" /\ mult = 24
        \/ "hfi" = "mfi" /\ mult = 1440)
    /\ get_timing_row self (Some day) false None Examples.record =
       Ok {| t_pat_key := 7; t_ftr := "vtl0";
             t_agg := Some (Qc_of_Z ((2 + 1) * mult)) |}
    /\ ("hfi" = "dfi" -> 2 = 0 ->
        get_timing_row self (Some day) false None Examples.record =
        Ok {| t_pat_key := 7; t_ftr := "vtl0"; t_agg := Some (Qc_of_Z 1) |})
    /\ ("hfi" = "hfi" -> 2 = 2 -> 1 = 1 ->
        get_timing_row self (Some day) false None Examples.record =
        Ok {| t_pat_key := 7; t_ftr := "vtl0"; t_agg := Some (Qc_of_Z 72) |}).
Proof.
  apply (timing_from_index_and_day Examples.visits "hfi" day Examples.record
           {| days_from_index := 2; los := 4 |}).
  - unfold agg_lvls. set_solver.
  - reflexivity.
Defined.

(** [get_timing] with a time column on any object whose lookups
    succeed: the row's value without the time column, plus the looked-up
    number divided by the entry of [from_seconds]. *)
Lemma get_timing_row_time_term
    (self : parquets_dask) (dc : row -> Z) (tc : row -> string)
    (end_of_visit : bool) (r : row) (vt : timing_frame) (idt : gmap Z id_row)
    (mult secs : Z) (v : nat) :
  visit_timing self = Future vt ->
  col_name vt = agg_level self ->
  id self = Future idt ->
  PyDict.get (from_days self) (agg_level self) = Some mult ->
  PyDict.get (from_seconds self) (agg_level self) = Some secs ->
  PyDict.get (time_dict self) (tc r) = Some v ->
  exists base,
    get_timing_row self (Some dc) end_of_visit None r =
       Ok {| t_pat_key := pat_key r; t_ftr := ftr r; t_agg := base |}
    /\ get_timing_row self (Some dc) end_of_visit (Some tc) r =
       Ok {| t_pat_key := pat_key r; t_ftr := ftr r;
             t_agg := cell_add base
               (Some (Qc_of_Z (Z.of_nat v) / Qc_of_Z secs)%Qc) |}.
Proof.
  intros Hvt Hcol Hid Hdays Hsecs Htd.
  unfold get_timing_row, PyDict.getitem, timing_column.
  rewrite Hvt, Hid, Hdays, Hsecs, Htd. cbn [result res_bind].
  rewrite decide_True by done.
  destruct end_of_visit; simpl; eexists; split; reflexivity.
Qed.

(** C2, as the code has it.  After [__init__], the lookup table maps the
    zero-padded string of hour h, minute m and second s to the position
    of that second in the day, h*3600 + m*60 + s, and the term that
    [get_timing] adds for a record with such a time of day is that
    number divided by the number of seconds in the unit of the level
    (86400 for "dfi", 3600 for "hfi", 60 for "mfi"). *)
Theorem time_term_is_second_of_day
    (id_table : gmap Z id_row) (agg : string) (dc : row -> Z)
    (tc : row -> string) (end_of_visit : bool) (r : row) (h m s : nat)
    (Hagg : agg ∈ agg_lvls)
    (Hh : (h < 24)%nat) (Hm : (m < 60)%nat) (Hs : (s < 60)%nat)
    (Htc : tc r = hms (h, m, s)) :
  exists self secs base,
    init id_table agg = Ok self
    /\ PyDict.get (time_dict self) (tc r) = Some (h * 3600 + m * 60 + s)%nat
    /\ PyDict.get (from_seconds self) agg = Some secs
    /\ (agg = "dfi" /\ secs = 86400 \/ agg = "hfi" /\ secs = 3600
        \/ agg = "mfi" /\ secs = 60)
    /\ get_timing_row self (Some dc) end_of_visit None r =
       Ok {| t_pat_key := pat_key r; t_ftr := ftr r; t_agg := base |}
    /\ get_timing_row self (Some dc) end_of_visit (Some tc) r =
       Ok {| t_pat_key := pat_key r; t_ftr := ftr r;
             t_agg := cell_add base
               (Some (Qc_of_Z (Z.of_nat (h * 3600 + m * 60 + s)) / Qc_of_Z secs)%Qc) |}.
Proof.
  destruct (init_ok id_table agg Hagg) as (mult & Hget & Hinit).
  destruct (from_seconds_levels agg Hagg) as (secs & Hsecs & Hcases).
  match type of Hinit with _ = Ok ?s => set (self := s) in * end.
  assert (Htd : PyDict.get (time_dict self) (tc r) = Some (second_of_day h m s)).
  { rewrite Htc. by apply time_dict_lookup. }
  destruct (get_timing_row_time_term self dc tc end_of_visit r
              {| col_name := agg;
                 col_vals := (fun r => days_from_index r * mult) <$> id_table |}
              id_table mult secs (second_of_day h m s))
    as (base & Hnone & Hsome);
    [reflexivity | reflexivity | reflexivity | exact Hget | exact Hsecs
     | exact Htd |].
  exists self, secs, base.
  split; [exact Hinit |]. split; [exact Htd |]. split; [exact Hsecs |].
  split; [exact Hcases |]. split; [exact Hnone | exact Hsome].
Qed.

Lemma time_term_is_second_of_day_witness :
  exists self secs base,
    init Examples.visits "mfi" = Ok self
    /\ PyDict.get (time_dict self) (time Examples.record) = Some (0 * 3600 + 1 * 60 + 0)%nat
    /\ PyDict.get (from_seconds self) "mfi" = Some secs
    /\ ("mfi" = "dfi" /\ secs = 86400 \/ "mfi" = "hfi" /\ secs = 3600
        \/ "mfi" = "mfi" /\ secs = 60)
    /\ get_timing_row self (Some day) false None Examples.record =
       Ok {| t_pat_key := 7; t_ftr := "vtl0"; t_agg := base |}
    /\ get_timing_row self (Some day) false (Some time) Examples.record =
       Ok {| t_pat_key := 7; t_ftr := "vtl0";
             t_agg := cell_add base
               (Some (Qc_of_Z (Z.of_nat (0 * 3600 + 1 * 60 + 0)) / Qc_of_Z secs)%Qc) |}.
Proof.
  apply (time_term_is_second_of_day Examples.visits "mfi" day time false
           Examples.record 0 1 0).
  - unfold agg_lvls. set_solver.
  - lia.
  - lia.
  - lia.
  - reflexivity.
Defined.

(** C2 as stated fails: the table does not hold the minute of the day.
    One minute past midnight is minute 1 of the day, and the table maps
    "00:01:00" to 60. *)
Lemma time_dict_not_minute_of_day :
  exists self,
    init Examples.visits "mfi" = Ok self
    /\ time Examples.record = "00:01:00"
    /\ PyDict.get (time_dict self) (time Examples.record) = Some 60%nat
    /\ minute_of_day 0 1 0 = 1%nat
    /\ PyDict.get (time_dict self) (time Examples.record)
       <> Some (minute_of_day 0 1 0).
Proof.
  destruct (init_ok Examples.visits "mfi") as (mult & _ & Hinit);
    [unfold agg_lvls; set_solver |].
  assert (Htd : PyDict.get build_time_dict (hms (0, 1, 0)%nat) = Some 60%nat).
  { apply (time_dict_lookup 0 1 0); lia. }
  assert (Hstr : time Examples.record = hms (0, 1, 0)%nat) by reflexivity.
  eexists. split; [exact Hinit |].
  cbn [time_dict]. rewrite Hstr, Htd.
  split; [reflexivity |]. split; [reflexivity |]. split; [reflexivity |].
  discriminate.
Qed.

(** [reset_agg_level] on an object that [__init__] built: [self.id] is
    the [Future] that [client.compute] returned, [get_visit_timing]
    subscripts it, and the call raises after the level is replaced. *)
Lemma reset_agg_level_raises id_table agg self new_level :
  init id_table agg = Ok self ->
  reset_agg_level self new_level =
  ({| from_days := from_days self;
      from_seconds := from_seconds self;
      agg_level := new_level;
      visit_timing := visit_timing self;
      id := id self;
      time_dict := time_dict self |}, Raise TypeError).
Proof.
  unfold init, get_visit_timing.
  cbn -[PyDict.of_pairs build_time_dict].
  destruct (PyDict.getitem _ agg) as [mult | e];
    cbn -[PyDict.of_pairs build_time_dict]; [| discriminate].
  injection 1 as <-. reflexivity.
Qed.

(** After a level change that left the timing frame as it was, the
    frame's column has the old name: [get_timing] with a day column reads
    the column under the new name and raises KeyError. *)
Lemma get_timing_row_stale
    (self : parquets_dask) (dc : row -> Z) (time_col : option (row -> string))
    (r : row) (vt : timing_frame) :
  visit_timing self = Future vt ->
  col_name vt <> agg_level self ->
  get_timing_row self (Some dc) false time_col r = Raise KeyError.
Proof.
  intros Hvt Hcol. unfold get_timing_row, timing_column.
  rewrite Hvt. cbn [result res_bind].
  rewrite decide_False by done. reflexivity.
Qed.

(** C9 fails on the code.  On the object built for the example visit
    (index offset 2) at level "dfi", [reset_agg_level] to "hfi" raises
    TypeError; the level is "hfi" afterwards and the base-offset table
    is the one of level "dfi", whose column is still named "dfi", so that
    a timing computation with a day column raises KeyError. *)
Theorem reset_agg_level_fails :
  exists self self',
    init Examples.visits "dfi" = Ok self
    /\ reset_agg_level self "hfi" = (self', Raise TypeError)
    /\ agg_level self' = "hfi"
    /\ visit_timing self' = visit_timing self
    /\ result (visit_timing self') =
       Ok {| col_name := "dfi"; col_vals := {[ 7 := 2 ]} |}
    /\ get_timing_row self' (Some day) false None Examples.record =
       Raise KeyError.
Proof.
  destruct (init_ok Examples.visits "dfi") as (mult & Hget & Hinit);
    [unfold agg_lvls; set_solver |].
  injection Hget as <-.
  eexists _, _. split; [exact Hinit |].
  split; [exact (reset_agg_level_raises _ _ _ "hfi" Hinit) |].
  split; [reflexivity |]. split; [reflexivity |].
  split.
  - cbn -[PyDict.of_pairs build_time_dict].
    unfold Examples.visits. rewrite map_fmap_singleton. reflexivity.
  - apply (get_timing_row_stale _ day None Examples.record
             {| col_name := "dfi";
                col_vals := (fun r => days_from_index r * 1) <$> Examples.visits |});
      [reflexivity | discriminate].
Qed.

End PipelineFacts.

(** ** The feature codec *)

Section FeatureCodecFacts.

Import FeatureCodec.

Lemma append_nil_r (s : string) : s +:+ "" = s.
Proof.
  induction s as [| c s IH]; [done |].
  unfold String.append; fold String.append. by rewrite IH.
Qed.

Lemma unique_from_elem seen l x :
  x ∈ unique_from seen l <-> x ∈ l /\ x ∉ seen.
Proof.
  revert seen. induction l as [| y l IH]; intros seen; simpl.
  - rewrite elem_of_nil. tauto.
  - destruct (decide (y ∈ seen)) as [Hin | Hnin].
    + rewrite IH, elem_of_cons. split; [tauto |].
      intros [[-> | ?] ?]; tauto.
    + rewrite !elem_of_cons, IH, elem_of_cons. split.
      * intros [-> | [? ?]]; [tauto |]. split; [tauto |]. tauto.
      * intros [[-> | ?] ?]; [tauto |].
        destruct (decide (x = y)) as [-> |]; [tauto |]. right. tauto.
Qed.

Lemma unique_from_nodup seen l : NoDup (unique_from seen l).
Proof.
  revert seen. induction l as [| y l IH]; intros seen; simpl.
  - constructor.
  - destruct (decide (y ∈ seen)); [apply IH |].
    constructor; [| apply IH].
    rewrite unique_from_elem, elem_of_cons. tauto.
Qed.

Lemma unique_elem l x : x ∈ unique l <-> x ∈ l.
Proof.
  unfold unique. rewrite unique_from_elem, elem_of_nil. tauto.
Qed.

Lemma unique_nodup l : NoDup (unique l).
Proof. apply unique_from_nodup. Qed.

Local Instance token_inj feature_prefix : Inj (=) (=) (token feature_prefix).
Proof.
  intros i j Heq. unfold token in Heq.
  apply (inj (String.append feature_prefix)) in Heq.
  by apply (inj pretty) in Heq.
Qed.

(** The dictionary of a column: token number [i] next to the [i]-th
    distinct value. *)
Lemma col_to_features_zip text_column feature_prefix :
  col_to_features text_column feature_prefix =
  zip (token feature_prefix <$> seq 0 (length (unique text_column)))
      (unique text_column).
Proof.
  unfold col_to_features.
  apply of_pairs_nodup.
  rewrite fst_zip by (by rewrite length_fmap, length_seq).
  change (NoDup (token feature_prefix <$> seq 0 (length (unique text_column)))).
  apply NoDup_fmap_2; [apply _ | apply NoDup_seq].
Qed.

Lemma swap_zip {A B} (l : list A) (k : list B) :
  (fun kv : A * B => (kv.2, kv.1)) <$> zip l k = zip k l.
Proof.
  revert k. induction l as [| x l IH]; intros [| y k]; simpl; try done.
  by rewrite <- IH.
Qed.

(** The token that [condense_features] writes for a text of the column,
    and what the dictionary holds for that token. *)
Lemma condense_lookup text_column feature_prefix t :
  t ∈ text_column ->
  exists ordinal,
    (ordinal < length (unique text_column))%nat
    /\ PyDict.get
         (PyDict.of_pairs ((fun kv : string * string => (kv.2, kv.1)) <$>
            PyDict.items (col_to_features text_column feature_prefix))) t
       = Some (token feature_prefix ordinal)
    /\ PyDict.get (col_to_features text_column feature_prefix)
         (token feature_prefix ordinal) = Some t.
Proof.
  intros Hin. apply unique_elem in Hin.
  apply list_elem_of_lookup in Hin as [k Hk].
  pose proof (lookup_lt_Some _ _ _ Hk) as Hlt.
  assert (Hkeys : (token feature_prefix <$> seq 0 (length (unique text_column))) !! k
                  = Some (token feature_prefix k)).
  { by rewrite list_lookup_fmap, lookup_seq_lt. }
  assert (Hlen : length (token feature_prefix <$> seq 0 (length (unique text_column)))
                 = length (unique text_column)).
  { by rewrite length_fmap, length_seq. }
  exists k. split; [done |].
  rewrite col_to_features_zip. unfold PyDict.items. rewrite swap_zip. split.
  - apply (get_of_pairs_zip _ _ k); [apply unique_nodup | done | done | done].
  - rewrite <- (of_pairs_nodup (zip _ (unique text_column))).
    + apply (get_of_pairs_zip _ _ k); [| done | done | done].
      apply NoDup_fmap_2; [apply _ | apply NoDup_seq].
    + rewrite fst_zip by lia.
      apply NoDup_fmap_2; [apply _ | apply NoDup_seq].
Qed.

Lemma df_to_features_lookup q_str df num_col buckets i r :
  df !! i = Some r ->
  df_to_features q_str df num_col buckets !! i =
  Some {| pat_key := pat_key r;
          text := text r +:+ bucket_suffix q_str df num_col buckets i;
          num := num r |}.
Proof.
  intros Hi. unfold df_to_features, bucket_suffix. destruct num_col as [nc |].
  - by rewrite list_lookup_imap, Hi.
  - rewrite Hi, append_nil_r. by destruct r.
Qed.

(** C6.  For a table run through the codec: the dictionary pairs the
    tokens prefix+0, prefix+1, ... one to one with the distinct
    (bucket-augmented) texts of the table, no token and no text occurring
    twice; and every row gets a token (never NaN) whose dictionary entry
    is the row's categorical value followed by its bucket suffix (empty
    without a numeric column). *)
Theorem codec_round_trip
    (q_str : nat -> list (string * cell) -> nat -> string)
    (df : list row) (feature_prefix : string)
    (num_col : option (row -> cell)) (buckets : nat) :
  let out := df_to_features q_str df num_col buckets in
  let coded := (encode_table q_str df feature_prefix num_col buckets).1 in
  let code_dict := (encode_table q_str df feature_prefix num_col buckets).2 in
  PyDict.keys code_dict =
    (fun i : nat => feature_prefix +:+ pretty i) <$> seq 0 (length code_dict)
  /\ NoDup (PyDict.keys code_dict)
  /\ NoDup (PyDict.values code_dict)
  /\ (forall v, v ∈ PyDict.values code_dict <-> v ∈ text <$> out)
  /\ (forall k v, PyDict.get code_dict k = Some v <-> (k, v) ∈ PyDict.items code_dict)
  /\ length coded = length df
  /\ (forall i r c,
        df !! i = Some r -> coded !! i = Some c ->
        exists ordinal,
          (ordinal < length code_dict)%nat
          /\ c_ftr c = Some (feature_prefix +:+ pretty ordinal)
          /\ PyDict.get code_dict (feature_prefix +:+ pretty ordinal) =
             Some (text r +:+ bucket_suffix q_str df num_col buckets i)).
Proof.
  intros out coded code_dict.
  unfold coded, code_dict, encode_table. simpl. fold out.
  set (texts := text <$> out).
  pose proof (col_to_features_zip texts feature_prefix) as Hzip.
  set (toks := token feature_prefix <$> seq 0 (length (unique texts))) in Hzip.
  assert (Hlen : length toks = length (unique texts)).
  { unfold toks. by rewrite length_fmap, length_seq. }
  assert (Hdlen : length (col_to_features texts feature_prefix)
                  = length (unique texts)).
  { rewrite Hzip, length_zip. lia. }
  assert (Hkeys : PyDict.keys (col_to_features texts feature_prefix) = toks).
  { unfold PyDict.keys. rewrite Hzip. apply fst_zip. lia. }
  assert (Hvals : PyDict.values (col_to_features texts feature_prefix)
                  = unique texts).
  { unfold PyDict.values. rewrite Hzip. apply snd_zip. lia. }
  assert (Hnd : NoDup toks).
  { apply NoDup_fmap_2; [apply _ | apply NoDup_seq]. }
  split; [by rewrite Hkeys, Hdlen |].
  split; [by rewrite Hkeys |].
  split; [rewrite Hvals; apply unique_nodup |].
  split; [intros v; rewrite Hvals; apply unique_elem |].
  split.
  { intros k v. split; [apply get_Some_elem |].
    unfold PyDict.items. intros Hin.
    apply list_elem_of_lookup in Hin as [i Hi].
    apply (get_lookup _ i); [| done].
    fold (PyDict.keys (col_to_features texts feature_prefix)).
    by rewrite Hkeys. }
  split; [unfold condense_features, out; rewrite length_fmap;
          unfold df_to_features; destruct num_col;
          [apply length_imap | done] |].
  intros i r c Hr Hc.
  unfold condense_features in Hc. rewrite list_lookup_fmap in Hc.
  unfold out in Hc at 1. rewrite (df_to_features_lookup _ _ _ _ _ _ Hr) in Hc.
  simpl in Hc. injection Hc as <-. simpl.
  set (t := text r +:+ bucket_suffix q_str df num_col buckets i).
  assert (Hin : t ∈ texts).
  { unfold texts, out. apply list_elem_of_fmap.
    eexists. split; [| eapply list_elem_of_lookup_2, df_to_features_lookup, Hr].
    done. }
  destruct (condense_lookup texts feature_prefix t Hin)
    as (ordinal & Hlt & Hinv & Hfwd).
  exists ordinal. rewrite Hdlen. split; [done |]. split; [exact Hinv | exact Hfwd].
Qed.

End FeatureCodecFacts.

(** ** The drivers: [boot_cis] and [boot_roc] *)

Section DriverFacts.

Import Float Numpy Bootstrap.

Context {rng roc : Type}.
Variable random_seed : seed_arg -> rng.
Variable random_randint : Z -> Z -> rng -> Z * rng.
Variable clf_metrics : list Z -> list Z -> clf_args -> list cell.
Variable boot_sample : list Z -> option (list Z) -> Z -> list nat.
Variable roc_curve : list Z -> list Qc -> roc.
Variable norm_ppf : fnum -> fnum.
Variable norm_cdf : fnum -> fnum.
Variable power_3_2 : Qc -> Qc.
Variable frame_mean : list cell -> cell.

Lemma res_mapM_length {A B} (f : A -> res B) (l : list A) (l' : list B) :
  res_mapM f l = Ok l' -> length l' = length l.
Proof.
  revert l'. induction l as [| x l IH]; intros l'; simpl.
  - by intros [= <-].
  - destruct (f x) as [y | e]; simpl; [| done].
    destruct (res_mapM f l) as [ys | e]; simpl; [| done].
    intros [= <-]. simpl. by rewrite (IH ys).
Qed.



(** The module does not bind [tools]. *)
Lemma tools_not_bound : load_global "tools" = Raise NameError.
Proof.
  unfold load_global. apply decide_False.
  apply (bool_decide_unpack _). by vm_compute.
Qed.

Lemma call_clf_metrics_raises inp (w : @world rng) :
  call_clf_metrics clf_metrics inp w = (Raise NameError, w).
Proof. unfold call_clf_metrics, bind, lift. by rewrite tools_not_bound. Qed.

Lemma pool_starmap_tools_raises {A B} (f : A -> @M rng B) tasks (w : @world rng) :
  pool_starmap "tools" f tasks w = (Raise NameError, w).
Proof. unfold pool_starmap, bind, lift. by rewrite tools_not_bound. Qed.

(** The first half of [boot_cis] stops at its first statement, the point
    estimate. *)
Lemma bootstrap_scores_raises targets guesses sample_by n ab wt mc seed
    (w : @world rng) :
  bootstrap_scores random_seed random_randint clf_metrics boot_sample
    targets guesses sample_by n ab wt mc seed w = (Raise NameError, w).
Proof.
  unfold bootstrap_scores. unfold bind at 1.
  by rewrite call_clf_metrics_raises.
Qed.

Lemma boot_cis_raises targets guesses sample_by n a method interpolation ab wt
    mc seed (w : @world rng) :
  boot_cis random_seed random_randint clf_metrics boot_sample norm_ppf norm_cdf
    power_3_2 frame_mean targets guesses sample_by n a method interpolation
    ab wt mc seed w = (Raise NameError, w).
Proof. unfold boot_cis, bind. by rewrite bootstrap_scores_raises. Qed.

(** [boot_roc] seeds the generator and draws its seeds, and stops where
    it names [tools.boot_sample]. *)
Lemma boot_roc_raises targets (roc_scores : list Qc) sample_by n seed
    (w : @world rng) :
  boot_roc random_seed random_randint boot_sample roc_curve targets roc_scores
    sample_by n seed w =
  if decide (0 <= seed < 2 ^ 32) then
    (Raise NameError,
     {| rng_state :=
          (randint random_randint 1 10000000 n (random_seed (SeedInt seed))).2;
        trace := trace w |})
  else (Raise ValueError, w).
Proof.
  unfold boot_roc. unfold bind at 1. unfold np_random_seed, seed_ok.
  destruct (decide (0 <= seed < 2 ^ 32)) as [Hs | Hs].
  - rewrite bool_decide_eq_true_2 by done.
    unfold bind at 1. unfold np_random_randint at 1. cbn [rng_state trace].
    destruct (randint random_randint 1 10000000 n (random_seed (SeedInt seed)))
      as [seeds g']. cbn [snd].
    unfold bind at 1. unfold call_boot_sample.
    by rewrite pool_starmap_tools_raises.
  - by rewrite bool_decide_eq_false_2 by done.
Qed.

(** C3 fails on the code.  Whatever the master seed, [boot_cis] raises
    NameError at its first statement, the point estimate through
    [tools.clf_metrics]: it derives no seed, leaves the generator as it
    found it and calls nothing.  [boot_roc] raises ValueError for a master
    seed outside [0, 2^32 - 1]; for one inside it seeds the generator and
    draws the [n] seeds, then raises NameError where it names
    [tools.boot_sample]: no index set reaches the sampling primitive. *)
Theorem bootstrap_stops_at_unbound_name
    (targets guesses : list Z) (roc_scores : list Qc)
    (sample_by : option (list Z)) (n : nat) (a : Qc)
    (method interpolation : string) (ab : option (list Z)) (wt mc : bool)
    (seed : option Z) (roc_seed : Z) (g : rng) :
  run (boot_cis random_seed random_randint clf_metrics boot_sample
         norm_ppf norm_cdf power_3_2 frame_mean targets guesses sample_by n a
         method interpolation ab wt mc seed) g =
    (Raise NameError, {| rng_state := g; trace := [] |})
  /\ run (boot_roc random_seed random_randint boot_sample roc_curve
            targets roc_scores sample_by n roc_seed) g =
     (if decide (0 <= roc_seed < 2 ^ 32) then
        (Raise NameError,
         {| rng_state :=
              (randint random_randint 1 10000000 n
                 (random_seed (SeedInt roc_seed))).2;
            trace := [] |})
      else (Raise ValueError, {| rng_state := g; trace := [] |})).
Proof.
  unfold run. split.
  - apply boot_cis_raises.
  - apply boot_roc_raises.
Qed.



End DriverFacts.

(** ** The drivers on concrete services *)

Section DriverExamples.

Import Float Numpy Bootstrap Examples.



End DriverExamples.

(** ** Arithmetic on canonical rationals *)

(** Turns statements about the order of [Qc] into statements about [Q],
    where [lra] and [nra] apply. *)
Ltac qc2q :=
  repeat (progress (
    unfold Bootstrap.lower_rank, Bootstrap.upper_rank, Bootstrap.eps,
      Bootstrap.hundred, Qcle, Qclt, Qcplus, Qcmult, Qcopp, Qcminus, Qcdiv,
      Qcinv, Q2Qc, Qc_of_Z in *;
    cbn [this] in *));
  rewrite ?Qred_correct in *;
  change (1 + 1)%Q with (2 # 1)%Q in *;
  change (inject_Z 100) with (100 # 1)%Q in *;
  change (/ (2 # 1))%Q with (1 # 2)%Q in *;
  change (/ (100 # 1))%Q with (1 # 100)%Q in *.

Section PercentileFacts.

Import Float Numpy Bootstrap.
Local Open Scope Qc_scope.

Lemma convex_bounds (x y w : Qc) :
  x <= y -> 0 <= w -> w <= 1 ->
  x <= x * (1 - w) + y * w /\ x * (1 - w) + y * w <= y.
Proof. intros. qc2q. split; nra. Qed.

Lemma convex_mono (x y w1 w2 : Qc) :
  x <= y -> w1 <= w2 ->
  x * (1 - w1) + y * w1 <= x * (1 - w2) + y * w2.
Proof. intros. qc2q. nra. Qed.


Lemma floor_mono (x y : Qc) : x <= y -> (floor x <= floor y)%Z.
Proof. intros H. by apply Qfloor_resp_le. Qed.

Lemma ceil_mono (x y : Qc) : x <= y -> (ceil x <= ceil y)%Z.
Proof. intros H. by apply Qceiling_resp_le. Qed.

Lemma floor_lb (x : Qc) : Qc_of_Z (floor x) <= x.
Proof. apply Qfloor_le. Qed.

Lemma floor_ub (x : Qc) : x < Qc_of_Z (floor x + 1).
Proof. apply Qlt_floor. Qed.

Lemma ceil_ub (x : Qc) : x <= Qc_of_Z (ceil x).
Proof. apply Qle_ceiling. Qed.

Lemma floor_of_Z (z : Z) : floor (Qc_of_Z z) = z.
Proof. apply Qfloor_Z. Qed.

Lemma ceil_of_Z (z : Z) : ceil (Qc_of_Z z) = z.
Proof. apply Qceiling_Z. Qed.

Lemma floor_range (x : Qc) (m : Z) :
  0 <= x -> x <= Qc_of_Z m -> (0 <= floor x <= m)%Z.
Proof.
  intros H0 Hm. split.
  - rewrite <- (floor_of_Z 0). apply floor_mono. by rewrite Z2Qc_inj_0.
  - rewrite <- (floor_of_Z m). by apply floor_mono.
Qed.

Lemma ceil_range (x : Qc) (m : Z) :
  0 <= x -> x <= Qc_of_Z m -> (0 <= ceil x <= m)%Z.
Proof.
  intros H0 Hm. split.
  - rewrite <- (ceil_of_Z 0). apply ceil_mono. by rewrite Z2Qc_inj_0.
  - rewrite <- (ceil_of_Z m). by apply ceil_mono.
Qed.

Lemma floor_le_ceil (x : Qc) : (floor x <= ceil x)%Z.
Proof.
  apply Z2Qc_inj_le. transitivity x; [apply floor_lb | apply ceil_ub].
Qed.

Lemma around_cases (x : Qc) : around x = floor x \/ around x = (floor x + 1)%Z.
Proof. unfold around. repeat case_decide; try destruct (Z.even _); auto. Qed.

Lemma around_mono (x y : Qc) : x <= y -> (around x <= around y)%Z.
Proof.
  intros Hxy. pose proof (floor_mono x y Hxy) as Hf.
  destruct (decide (floor x = floor y)) as [Heq | Hne].
  - unfold around. rewrite <- Heq.
    assert (Hd : x - Qc_of_Z (floor x) <= y - Qc_of_Z (floor x)).
    { clear -Hxy. revert Hxy. generalize (Qc_of_Z (floor x)). intros c H.
      qc2q. lra. }
    revert Hd. generalize (x - Qc_of_Z (floor x)) (y - Qc_of_Z (floor x)).
    intros dx dy Hd.
    destruct (decide (dx < 1 / 2)) as [H1 | H1];
      destruct (decide (dy < 1 / 2)) as [H2 | H2];
      destruct (decide (1 / 2 < dx)) as [H3 | H3];
      destruct (decide (1 / 2 < dy)) as [H4 | H4];
      try destruct (Z.even (floor x)); try lia;
      exfalso; clear -Hd H1 H2 H3 H4; qc2q; lra.
  - destruct (around_cases x) as [-> | ->], (around_cases y) as [-> | ->]; lia.
Qed.

Lemma around_range (x : Qc) (m : Z) :
  0 <= x -> x <= Qc_of_Z m -> (0 <= around x <= m)%Z.
Proof.
  intros H0 Hm. pose proof (floor_range x m H0 Hm) as [Hf0 Hfm].
  split; [destruct (around_cases x) as [-> | ->]; lia |].
  destruct (decide (floor x = m)) as [Heq | Hne].
  - unfold around. rewrite Heq.
    rewrite decide_True; [lia |].
    pose proof (floor_lb x) as Hlb. rewrite Heq in Hlb.
    clear -Hlb Hm. revert Hlb Hm. generalize (Qc_of_Z m). intros c ??.
    qc2q. lra.
  - destruct (around_cases x) as [-> | ->]; lia.
Qed.


Lemma sorted_lookup_le (s : list Qc) (i j : nat) (x y : Qc) :
  StronglySorted Qcle s -> (i <= j)%nat ->
  s !! i = Some x -> s !! j = Some y -> x <= y.
Proof.
  intros Hs. revert i j. induction Hs as [| z s Hs IH Hall]; intros i j Hij Hi Hj.
  { done. }
  destruct i as [| i], j as [| j]; simpl in *.
  - injection Hi as ->. by injection Hj as ->.
  - injection Hi as ->. rewrite Forall_forall in Hall.
    apply Hall. by eapply list_elem_of_lookup_2.
  - lia.
  - eapply IH; [| done | done]. lia.
Qed.

Lemma take_mono (s : list Qc) (i j : Z) :
  StronglySorted Qcle s ->
  (0 <= i)%Z -> (i <= j)%Z -> (j < Z.of_nat (length s))%Z ->
  take s i <= take s j.
Proof.
  intros Hs H0 Hij Hj. unfold take.
  destruct (lookup_lt_is_Some_2 s (Z.to_nat i)) as [x Hx]; [lia |].
  destruct (lookup_lt_is_Some_2 s (Z.to_nat j)) as [y Hy]; [lia |].
  rewrite Hx, Hy. simpl. eapply sorted_lookup_le; [done | | done | done]. lia.
Qed.

Lemma interpolate_mono (s : list Qc) (t1 t2 : Qc) :
  StronglySorted Qcle s ->
  0 <= t1 -> t1 <= t2 -> t2 <= Qc_of_Z (Z.of_nat (length s) - 1) ->
  interpolate s t1 <= interpolate s t2.
Proof.
  intros Hs H0 H12 Hm. unfold interpolate.
  set (m := (Z.of_nat (length s) - 1)%Z) in *.
  assert (Ht1m : t1 <= Qc_of_Z m) by (by transitivity t2).
  assert (Ht20 : 0 <= t2) by (by transitivity t1).
  pose proof (floor_range t1 m H0 Ht1m) as [Hi1 Hi1m].
  pose proof (floor_range t2 m Ht20 Hm) as [Hi2 Hi2m].
  pose proof (floor_mono t1 t2 H12) as Hi12.
  pose proof (floor_lb t1) as Hlb1. pose proof (floor_ub t1) as Hub1.
  pose proof (floor_lb t2) as Hlb2. pose proof (floor_ub t2) as Hub2.
  set (i1 := floor t1) in *. set (i2 := floor t2) in *.
  assert (Hxy1 : take s i1 <= take s (Z.min (i1 + 1) m)).
  { apply take_mono; [done | lia | lia | lia]. }
  assert (Hxy2 : take s i2 <= take s (Z.min (i2 + 1) m)).
  { apply take_mono; [done | lia | lia | lia]. }
  assert (Hw1 : 0 <= t1 - Qc_of_Z i1 /\ t1 - Qc_of_Z i1 <= 1).
  { rewrite Z2Qc_inj_add, Z2Qc_inj_1 in Hub1. clear -Hlb1 Hub1.
    revert Hlb1 Hub1. generalize (Qc_of_Z i1). intros c ??.
    qc2q. lra. }
  assert (Hw2 : 0 <= t2 - Qc_of_Z i2 /\ t2 - Qc_of_Z i2 <= 1).
  { rewrite Z2Qc_inj_add, Z2Qc_inj_1 in Hub2. clear -Hlb2 Hub2.
    revert Hlb2 Hub2. generalize (Qc_of_Z i2). intros c ??.
    qc2q. lra. }
  destruct (decide (i1 = i2)) as [Heq | Hne].
  - rewrite <- Heq. apply convex_mono; [done |].
    clear -H12. revert H12. generalize (Qc_of_Z i1). intros c ?. qc2q. lra.
  - transitivity (take s (Z.min (i1 + 1) m)).
    { apply convex_bounds; tauto. }
    transitivity (take s i2).
    { apply take_mono; [done | lia | lia | lia]. }
    apply convex_bounds; tauto.
Qed.

Lemma midpoint_index (t1 t2 : Qc) (m : Z) :
  0 <= t1 -> t1 <= t2 -> t2 <= Qc_of_Z m ->
  let h (t : Qc) := 1 / 2 * (Qc_of_Z (floor t) + Qc_of_Z (ceil t)) in
  0 <= h t1 /\ h t1 <= h t2 /\ h t2 <= Qc_of_Z m.
Proof.
  intros H0 H12 Hm h. unfold h.
  assert (Ht1m : t1 <= Qc_of_Z m) by (by transitivity t2).
  assert (Ht20 : 0 <= t2) by (by transitivity t1).
  pose proof (floor_range t1 m H0 Ht1m) as [Hf1 _].
  pose proof (ceil_range t1 m H0 Ht1m) as [Hc1 _].
  pose proof (floor_range t2 m Ht20 Hm) as [_ Hf2].
  pose proof (ceil_range t2 m Ht20 Hm) as [_ Hc2].
  pose proof (floor_mono t1 t2 H12) as Hf. pose proof (ceil_mono t1 t2 H12) as Hc.
  apply Z2Qc_inj_le in Hf1, Hc1, Hf2, Hc2, Hf, Hc.
  rewrite Z2Qc_inj_0 in Hf1, Hc1.
  revert Hf1 Hc1 Hf2 Hc2 Hf Hc.
  generalize (Qc_of_Z (floor t1)) (Qc_of_Z (ceil t1))
             (Qc_of_Z (floor t2)) (Qc_of_Z (ceil t2)) (Qc_of_Z m).
  intros f1 c1 f2 c2 mm ??????. qc2q. repeat split; lra.
Qed.

Lemma quantile_mono (ip : interp) (s : list Qc) (q1 q2 : Qc) :
  StronglySorted Qcle s -> s <> [] ->
  0 <= q1 -> q1 <= q2 -> q2 <= 1 ->
  quantile ip s q1 <= quantile ip s q2.
Proof.
  intros Hs Hne H0 H12 H1. unfold quantile.
  set (m := (Z.of_nat (length s) - 1)%Z).
  assert (Hm : (0 <= m)%Z).
  { unfold m. destruct s; [done |]. simpl. lia. }
  assert (Hidx : 0 <= q1 * Qc_of_Z m /\ q1 * Qc_of_Z m <= q2 * Qc_of_Z m
                 /\ q2 * Qc_of_Z m <= Qc_of_Z m).
  { apply Z2Qc_inj_le in Hm. rewrite Z2Qc_inj_0 in Hm.
    revert Hm. generalize (Qc_of_Z m). intros c Hc.
    clear -H0 H12 H1 Hc. qc2q. repeat split; nra. }
  destruct Hidx as (Hi0 & Hi12 & Him).
  assert (Hi1m : q1 * Qc_of_Z m <= Qc_of_Z m) by (by transitivity (q2 * Qc_of_Z m)).
  assert (Hi20 : 0 <= q2 * Qc_of_Z m) by (by transitivity (q1 * Qc_of_Z m)).
  destruct ip.
  - by apply interpolate_mono.
  - pose proof (floor_range _ m Hi0 Hi1m). pose proof (floor_range _ m Hi20 Him).
    apply take_mono; [done | lia | by apply floor_mono | lia].
  - pose proof (ceil_range _ m Hi0 Hi1m). pose proof (ceil_range _ m Hi20 Him).
    apply take_mono; [done | lia | by apply ceil_mono | lia].
  - destruct (midpoint_index _ _ m Hi0 Hi12 Him) as (? & ? & ?).
    by apply interpolate_mono.
  - pose proof (around_range _ m Hi0 Hi1m). pose proof (around_range _ m Hi20 Him).
    apply take_mono; [done | lia | by apply around_mono | lia].
Qed.


Lemma nanpercentile_ok col q interpolation ip :
  parse_interpolation interpolation = Some ip ->
  0 <= q -> q <= hundred ->
  nanpercentile col (Fin q) interpolation = Ok (nanquantile ip col (q / hundred)).
Proof.
  intros Hip H0 H1. unfold nanpercentile.
  rewrite decide_True by done. by rewrite Hip.
Qed.

Lemma nanquantile_mono ip col q1 q2 :
  0 <= q1 -> q1 <= q2 -> q2 <= 1 ->
  cell_le (nanquantile ip col q1) (nanquantile ip col q2).
Proof.
  intros H0 H12 H1. unfold nanquantile.
  destruct (dropna col) as [| v vals] eqn:Hvals; [done |].
  simpl. apply quantile_mono; [| | done | done | done].
  - apply StronglySorted_merge_sort; apply _.
  - intros Hnil.
    pose proof (merge_sort_Permutation Qcle (v :: vals)) as Hperm.
    rewrite Hnil in Hperm. by apply Permutation_nil_l in Hperm.
Qed.

Lemma rank_ranges (a : Qc) :
  0 < a -> a < 1 ->
  0 <= lower_rank a /\ lower_rank a <= hundred
  /\ 0 <= upper_rank a /\ upper_rank a <= hundred.
Proof. intros H0 H1. unfold lower_rank, upper_rank. qc2q. repeat split; lra. Qed.

Lemma lower_rank_mono (a1 a2 : Qc) :
  0 < a1 -> a1 < a2 -> a2 < 1 ->
  0 <= lower_rank a1 / hundred
  /\ lower_rank a1 / hundred <= lower_rank a2 / hundred
  /\ lower_rank a2 / hundred <= 1.
Proof. intros H0 H1 H2. unfold lower_rank. qc2q. repeat split; lra. Qed.

Lemma res_mapM_fmap {A B} (f : A -> res B) (g : A -> B) (l : list A) :
  (forall x, x ∈ l -> f x = Ok (g x)) -> res_mapM f l = Ok (g <$> l).
Proof.
  induction l as [| x l IH]; intros Hf; simpl; [done |].
  rewrite Hf by left. simpl. rewrite IH; [done |].
  intros y Hy. apply Hf. by right.
Qed.

Lemma res_mapM_ext {A B} (f g : A -> res B) (l : list A) :
  (forall x, x ∈ l -> f x = g x) -> res_mapM f l = res_mapM g l.
Proof.
  induction l as [| x l IH]; intros Hf; simpl; [done |].
  rewrite Hf by left. rewrite IH; [done |].
  intros y Hy. apply Hf. by right.
Qed.

Lemma pct_cis_ok scores ncols a interpolation ip :
  parse_interpolation interpolation = Some ip ->
  0 < a -> a < 1 ->
  pct_cis scores ncols a interpolation =
  Ok ((fun i => (nanquantile ip (column scores i) (lower_rank a / hundred),
                 nanquantile ip (column scores i) (upper_rank a / hundred)))
        <$> seq 0 ncols).
Proof.
  intros Hip H0 H1. unfold pct_cis.
  destruct (rank_ranges a H0 H1) as (Hl0 & Hl1 & Hu0 & Hu1).
  apply res_mapM_fmap. intros i _. unfold nanpercentile2. cbn [fst snd].
  by rewrite !(nanpercentile_ok _ _ _ ip).
Qed.

(** C5, as the code has it.  With method "pct", a fixed score matrix and
    one of the five interpolation policies, for significance levels
    a1 < a2 in (0,1) the bounds are computed for every metric, and the
    lower bound at a1 is less than or equal to the lower bound at a2: the
    lower bound does not increase as a decreases (for a metric whose
    bootstrap values are all NaN both bounds are NaN). *)
Theorem pct_lower_bound_monotone
    (scores : matrix) (ncols : nat) (interpolation : string) (a1 a2 : Qc)
    (Hip : is_Some (parse_interpolation interpolation))
    (H0 : 0 < a1) (H12 : a1 < a2) (H1 : a2 < 1) :
  exists c1 c2,
    pct_cis scores ncols a1 interpolation = Ok c1
    /\ pct_cis scores ncols a2 interpolation = Ok c2
    /\ length c1 = ncols /\ length c2 = ncols
    /\ forall i lu1 lu2,
         c1 !! i = Some lu1 -> c2 !! i = Some lu2 -> cell_le lu1.1 lu2.1.
Proof.
  destruct Hip as [ip Hip].
  assert (Ha1 : a1 < 1) by (by transitivity a2).
  assert (Ha2 : 0 < a2) by (by transitivity a1).
  eexists _, _.
  split; [by apply (pct_cis_ok _ _ _ _ ip) |].
  split; [by apply (pct_cis_ok _ _ _ _ ip) |].
  split; [by rewrite length_fmap, length_seq |].
  split; [by rewrite length_fmap, length_seq |].
  intros i lu1 lu2 Hlu1 Hlu2.
  rewrite list_lookup_fmap in Hlu1, Hlu2.
  destruct (seq 0 ncols !! i) as [k |]; [| done].
  simpl in Hlu1, Hlu2. injection Hlu1 as <-. injection Hlu2 as <-. simpl.
  destruct (lower_rank_mono a1 a2 H0 H12 H1) as (? & ? & ?).
  by apply nanquantile_mono.
Qed.

End PercentileFacts.

(** ** The BCa method *)

Section BcaFacts.

Import Float Numpy Bootstrap.
Local Open Scope Qc_scope.

Variable norm_ppf : fnum -> fnum.
Variable norm_cdf : fnum -> fnum.
Variable power_3_2 : Qc -> Qc.

Lemma eps_nonzero : eps <> 0.
Proof.
  intros H. apply (f_equal this) in H. vm_compute in H. discriminate.
Qed.

(** C8.  The denominator of the acceleration is never zero when the
    division is made: a denominator that is exactly zero has been
    replaced by 1e-6, and the acceleration is the finite quotient.  And
    if the normal quantile function is infinite at 0 and at 1, then for a
    metric whose share of bootstrap values below the point estimate is 0
    or 1 the bias correction, which would be infinite, is 0. *)
Theorem bca_guards_degenerate_values
    (Hppf0 : norm_ppf (Fin 0) = NInf) (Hppf1 : norm_ppf (Fin 1) = PInf) :
  (forall diffs,
     bca_denom power_3_2 diffs <> 0
     /\ bca_acc power_3_2 diffs =
        Fin (bca_numer diffs / bca_denom power_3_2 diffs)
     /\ (bca_denom_raw power_3_2 diffs = 0 ->
         bca_denom power_3_2 diffs = eps
         /\ bca_acc power_3_2 diffs = Fin (bca_numer diffs / eps)))
  /\ (forall (n : nat) col stat_val,
        n <> 0%nat ->
        let n_less := length (filter (fun c => cell_lt c stat_val) col) in
        let p_less := fdiv (Fin (Qc_of_Z (Z.of_nat n_less)))
                           (Fin (Qc_of_Z (Z.of_nat n))) in
        n_less = 0%nat \/ n_less = n ->
        (p_less = Fin 0 \/ p_less = Fin 1)
        /\ isinf (norm_ppf p_less) = true
        /\ bca_z0 norm_ppf n col stat_val = Fin 0).
Proof.
  split.
  - intros diffs.
    assert (Hden : bca_denom power_3_2 diffs <> 0).
    { unfold bca_denom. case_decide as Hz; [| done].
      rewrite Hz, Qcplus_0_l. apply eps_nonzero. }
    assert (Hacc : bca_acc power_3_2 diffs =
                   Fin (bca_numer diffs / bca_denom power_3_2 diffs)).
    { unfold bca_acc, fdiv. by rewrite decide_False. }
    split; [done |]. split; [done |].
    intros Hraw.
    assert (Heps : bca_denom power_3_2 diffs = eps).
    { unfold bca_denom. rewrite decide_True by done.
      by rewrite Hraw, Qcplus_0_l. }
    split; [done |]. by rewrite Hacc, Heps.
  - intros n col stat_val Hn n_less p_less Hcases.
    assert (Hnz : Qc_of_Z (Z.of_nat n) <> 0).
    { rewrite <- Z2Qc_inj_0. intros H%Z2Qc_inj. lia. }
    assert (Hp : p_less = Fin 0 \/ p_less = Fin 1).
    { unfold p_less, fdiv. rewrite decide_False by done.
      destruct Hcases as [-> | ->].
      - left. f_equal. change (Z.of_nat 0) with 0%Z.
        rewrite Z2Qc_inj_0. unfold Qcdiv. ring.
      - right. f_equal. unfold Qcdiv. by rewrite Qcmult_inv_r. }
    assert (Hinf : isinf (norm_ppf p_less) = true).
    { destruct Hp as [-> | ->]; [by rewrite Hppf0 | by rewrite Hppf1]. }
    split; [done |]. split; [done |].
    unfold bca_z0. fold n_less. fold p_less. by rewrite Hinf.
Qed.

End BcaFacts.

(** ** The interval methods on concrete inputs *)

Section IntervalExamples.

Import Float Numpy Bootstrap Examples.
Local Open Scope Qc_scope.

Lemma bca_guards_degenerate_values_witness :
  (uniform_ppf (Fin 0) = NInf /\ uniform_ppf (Fin 1) = PInf)
  /\ bca_denom approx_power_3_2 (jack_diffs [Some 1; Some 1] (Some 1)) = eps
  /\ bca_acc approx_power_3_2 (jack_diffs [Some 1; Some 1] (Some 1)) =
     Fin (bca_numer (jack_diffs [Some 1; Some 1] (Some 1)) / eps)
  /\ bca_z0 uniform_ppf 5 (column scores5 0) (Some (Qc_of_Z 0)) = Fin 0
  /\ bca_z0 uniform_ppf 5 (column scores5 0) (Some (Qc_of_Z 5)) = Fin 0.
Proof.
  assert (H0 : uniform_ppf (Fin 0) = NInf) by reflexivity.
  assert (H1 : uniform_ppf (Fin 1) = PInf) by reflexivity.
  split; [by split |].
  pose proof (bca_guards_degenerate_values uniform_ppf approx_power_3_2 H0 H1)
    as [Hden Hz0].
  destruct (Hden (jack_diffs [Some 1; Some 1] (Some 1))) as (_ & _ & Hraw).
  destruct Hraw as [Heps Hacc].
  { apply Qc_is_canon. vm_compute. reflexivity. }
  split; [exact Heps |]. split; [exact Hacc |].
  split.
  - apply (Hz0 5%nat (column scores5 0) (Some (Qc_of_Z 0))); [lia |].
    left. vm_compute. reflexivity.
  - apply (Hz0 5%nat (column scores5 0) (Some (Qc_of_Z 5))); [lia |].
    right. vm_compute. reflexivity.
Defined.

Lemma pct_lower_bound_monotone_witness :
  (is_Some (parse_interpolation "nearest")
   /\ 0 < quarter /\ quarter < half /\ half < 1)
  /\ exists c1 c2,
       pct_cis scores5 1 quarter "nearest" = Ok c1
       /\ pct_cis scores5 1 half "nearest" = Ok c2
       /\ length c1 = 1%nat /\ length c2 = 1%nat
       /\ forall i lu1 lu2,
            c1 !! i = Some lu1 -> c2 !! i = Some lu2 -> cell_le lu1.1 lu2.1.
Proof.
  assert (Hip : is_Some (parse_interpolation "nearest")) by (by eexists).
  assert (H0 : 0 < quarter) by reflexivity.
  assert (H12 : quarter < half) by reflexivity.
  assert (H1 : half < 1) by reflexivity.
  split; [done |].
  exact (pct_lower_bound_monotone scores5 1 "nearest" quarter half Hip H0 H12 H1).
Defined.

(** C5 as stated fails: on the five values 0..4 with policy "nearest" the
    lower bound at a = 1/4 is 0 and the lower bound at a = 1/2 is 1, so
    the lower bound at the smaller level is not the greater one. *)
Lemma pct_lower_bound_not_antitone :
  exists l1 u1 l2 u2,
    pct_cis scores5 1 quarter "nearest" = Ok [(Some l1, Some u1)]
    /\ pct_cis scores5 1 half "nearest" = Ok [(Some l2, Some u2)]
    /\ l1 = Qc_of_Z 0 /\ l2 = Qc_of_Z 1
    /\ quarter < half
    /\ ~ (l2 <= l1).
Proof.
  eexists _, _, _, _.
  split; [vm_compute; reflexivity |].
  split; [vm_compute; reflexivity |].
  split; [by apply Qc_is_canon |].
  split; [by apply Qc_is_canon |].
  split; [reflexivity |].
  intros Hle. vm_compute in Hle. by apply Hle.
Qed.

End IntervalExamples.

(** * Further properties of the code *)

(** ** [get_times]: keys, overflow, missing columns *)

Section GetTimesMore.

Import GetTimes.

Lemma uint32_small z : 0 <= z < 2 ^ 32 -> Np.uint32 z = z.
Proof. intros Hz. unfold Np.uint32. by apply Z.mod_small. Qed.

Lemma uint32_add a b : Np.uint32 (Np.uint32 a + Np.uint32 b) = Np.uint32 (a + b).
Proof. unfold Np.uint32. by rewrite <- Z.add_mod by lia. Qed.

Lemma int64_small z : - 2 ^ 63 <= z < 2 ^ 63 -> Np.int64 z = z.
Proof.
  intros Hz. unfold Np.int64. rewrite Z.mod_small by lia. lia.
Qed.

Lemma res_mapM_Ok_lookup {A B} (f : A -> res B) (l : list A) (l' : list B) i x :
  res_mapM f l = Ok l' -> l !! i = Some x ->
  exists y, l' !! i = Some y /\ f x = Ok y.
Proof.
  revert l' i. induction l as [| a l IH]; intros l' i; simpl; [done |].
  destruct (f a) as [b | e] eqn:Hfa; simpl; [| done].
  destruct (res_mapM f l) as [bs | e]; simpl; [| done].
  intros [= <-]. destruct i as [| i]; simpl.
  - intros [= <-]. eauto.
  - intros Hi. by apply IH.
Qed.

Lemma res_mapM_all_Ok {A B} (f : A -> res B) (l : list A) :
  (forall x, x ∈ l -> exists y, f x = Ok y) ->
  exists l', res_mapM f l = Ok l'.
Proof.
  induction l as [| a l IH]; intros Hf; simpl; [eauto |].
  destruct (Hf a) as [b ->]; [left |]. simpl.
  destruct IH as [bs ->]; [intros x Hx; apply Hf; by right |]. simpl. eauto.
Qed.

Lemma res_mapM_some_Raise {A B} (f : A -> res B) (l : list A) (e : pyerr) :
  (forall x e', x ∈ l -> f x = Raise e' -> e' = e) ->
  (exists x, x ∈ l /\ f x = Raise e) ->
  res_mapM f l = Raise e.
Proof.
  induction l as [| a l IH]; intros Hall (x & Hx & Hfx).
  { by apply elem_of_nil in Hx. }
  simpl. destruct (f a) as [b | e'] eqn:Hfa; simpl.
  - rewrite IH; [done | |].
    + intros y e' Hy. apply Hall. by right.
    + apply elem_of_cons in Hx as [-> | Hx]; [congruence | eauto].
  - f_equal. eapply Hall; [left | done].
Qed.

(** A row of [get_times] raises only for a key that the dictionary
    lacks. *)
Lemma get_times_row_cases tth ttm dict day_col time_col r :
  match dict !! pat_key r with
  | Some _ =>
      exists o, get_times_row tth ttm dict day_col time_col r = Ok o
                /\ o_pat_key o = pat_key r /\ o_ftr o = ftr r
  | None => get_times_row tth ttm dict day_col time_col r = Raise KeyError
  end.
Proof.
  unfold get_times_row. destruct (dict !! pat_key r) as [idx |]; simpl; [| done].
  destruct day_col as [dc |]; [| eauto].
  destruct time_col as [tc |]; eauto.
Qed.

(** X1.  With a day column and a time column every value is reduced modulo
    2^32; when the day, hour and minute counts are not negative and fit
    32 bits nothing wraps, and the row holds the day count, 24 times it
    plus the hours, and 1440 times it plus the minutes. *)
Theorem get_times_day_and_time
    (tth ttm : string -> Z) (dict : gmap Z Z) (dc : row -> Z)
    (tc : row -> string) (r : row) (idx : Z)
    (Hidx : dict !! pat_key r = Some idx) :
  exists o,
    get_times_row tth ttm dict (Some dc) (Some tc) r = Ok o
    /\ dfi o = (idx + dc r) mod 2 ^ 32
    /\ hfi o = (24 * (idx + dc r) + tth (tc r)) mod 2 ^ 32
    /\ mfi o = (1440 * (idx + dc r) + ttm (tc r)) mod 2 ^ 32
    /\ (0 <= idx + dc r -> 0 <= tth (tc r) -> 0 <= ttm (tc r) ->
        24 * (idx + dc r) + tth (tc r) < 2 ^ 32 ->
        1440 * (idx + dc r) + ttm (tc r) < 2 ^ 32 ->
        dfi o = idx + dc r
        /\ hfi o = 24 * (idx + dc r) + tth (tc r)
        /\ mfi o = 1440 * (idx + dc r) + ttm (tc r)).
Proof.
  assert (Hh : Np.uint32 (Np.uint32 (Np.uint32 (idx + dc r) * 24)
                          + Np.uint32 (tth (tc r)))
               = (24 * (idx + dc r) + tth (tc r)) mod 2 ^ 32).
  { rewrite uint32_mul_r, uint32_add. unfold Np.uint32.
    apply (f_equal (fun z => z mod 2 ^ 32)). ring. }
  assert (Hm : Np.uint32 (Np.uint32 (Np.uint32 (Np.uint32 (idx + dc r) * 24) * 60)
                          + Np.uint32 (ttm (tc r)))
               = (1440 * (idx + dc r) + ttm (tc r)) mod 2 ^ 32).
  { rewrite (uint32_mul_r (idx + dc r) 24), uint32_mul_r, uint32_add.
    unfold Np.uint32. apply (f_equal (fun z => z mod 2 ^ 32)). ring. }
  unfold get_times_row. rewrite Hidx.
  eexists. split; [reflexivity |]. cbn [dfi hfi mfi].
  rewrite uint32_int64, Hh, Hm.
  split; [done |]. split; [done |]. split; [done |].
  intros H0 Hh0 Hm0 Hhs Hms.
  unfold Np.uint32. rewrite !Z.mod_small by lia. done.
Qed.

Lemma get_times_day_and_time_witness :
  exists o,
    get_times_row Examples.one_hour Examples.ninety_minutes Examples.times_dict2
      (Some day) (Some time) Examples.times_known = Ok o
    /\ dfi o = (3 + 2) mod 2 ^ 32
    /\ hfi o = (24 * (3 + 2) + 1) mod 2 ^ 32
    /\ mfi o = (1440 * (3 + 2) + 90) mod 2 ^ 32
    /\ (0 <= 3 + 2 -> 0 <= 1 -> 0 <= 90 ->
        24 * (3 + 2) + 1 < 2 ^ 32 ->
        1440 * (3 + 2) + 90 < 2 ^ 32 ->
        dfi o = 3 + 2 /\ hfi o = 24 * (3 + 2) + 1 /\ mfi o = 1440 * (3 + 2) + 90).
Proof.
  apply (get_times_day_and_time Examples.one_hour Examples.ninety_minutes
           Examples.times_dict2 day time Examples.times_known 3).
  reflexivity.
Defined.

(** X2.  Without a day column the time column is not read: the row holds the
    index offset of the visit, which may be negative, and as long as 1440
    times it fits 64 bits, 24 and 1440 times it. *)
Theorem get_times_without_day_column
    (tth ttm : string -> Z) (dict : gmap Z Z) (time_col : option (row -> string))
    (r : row) (idx : Z)
    (Hidx : dict !! pat_key r = Some idx)
    (Hfit : - 2 ^ 63 <= 1440 * idx < 2 ^ 63) :
  get_times_row tth ttm dict None time_col r =
  Ok {| o_pat_key := pat_key r; o_ftr := ftr r;
        dfi := idx; hfi := 24 * idx; mfi := 1440 * idx |}.
Proof.
  unfold get_times_row. rewrite Hidx. simpl.
  rewrite (int64_small (idx * 24)) by lia.
  rewrite int64_small by lia.
  do 2 f_equal; lia.
Qed.

Lemma get_times_without_day_column_witness :
  get_times_row Examples.one_hour Examples.ninety_minutes Examples.times_dict2
    None (Some time) Examples.times_known =
  Ok {| o_pat_key := 7; o_ftr := "vtl1"; dfi := 3; hfi := 24 * 3; mfi := 1440 * 3 |}.
Proof.
  apply (get_times_without_day_column Examples.one_hour Examples.ninety_minutes
           Examples.times_dict2 (Some time) Examples.times_known 3).
  - reflexivity.
  - lia.
Defined.

(** X3.  [get_times] looks every [pat_key] of the table up before anything
    else: one key that the dictionary lacks makes the whole call raise
    KeyError, whatever the columns. *)
Theorem get_times_missing_key
    (tth ttm : string -> Z) (df : list row) (dict : gmap Z Z)
    (day_col : option (row -> Z)) (time_col : option (row -> string))
    (r : row) (Hr : r ∈ df) (Hmiss : dict !! pat_key r = None) :
  get_times tth ttm df dict day_col time_col = Raise KeyError.
Proof.
  unfold get_times. apply res_mapM_some_Raise.
  - intros x e _ Hx.
    pose proof (get_times_row_cases tth ttm dict day_col time_col x) as Hc.
    destruct (dict !! pat_key x).
    + destruct Hc as (o & Ho & _). congruence.
    + congruence.
  - exists r. split; [done |].
    pose proof (get_times_row_cases tth ttm dict day_col time_col r) as Hc.
    by rewrite Hmiss in Hc.
Qed.

Lemma get_times_missing_key_witness :
  get_times Examples.one_hour Examples.ninety_minutes
    [Examples.times_known; Examples.times_unknown] Examples.times_dict2
    (Some day) None = Raise KeyError.
Proof.
  apply (get_times_missing_key Examples.one_hour Examples.ninety_minutes
           [Examples.times_known; Examples.times_unknown] Examples.times_dict2
           (Some day) None Examples.times_unknown).
  - set_solver.
  - reflexivity.
Defined.

(** X4.  When the dictionary holds every [pat_key] of the table, [get_times]
    returns one row per input row, in order, with the key and the feature
    of that row. *)
Theorem get_times_keeps_rows
    (tth ttm : string -> Z) (df : list row) (dict : gmap Z Z)
    (day_col : option (row -> Z)) (time_col : option (row -> string))
    (Hall : forall r, r ∈ df -> is_Some (dict !! pat_key r)) :
  exists out,
    get_times tth ttm df dict day_col time_col = Ok out
    /\ length out = length df
    /\ forall i r o, df !! i = Some r -> out !! i = Some o ->
         o_pat_key o = pat_key r /\ o_ftr o = ftr r.
Proof.
  unfold get_times.
  destruct (res_mapM_all_Ok (get_times_row tth ttm dict day_col time_col) df)
    as [out Hout].
  { intros r Hr. destruct (Hall r Hr) as [idx Hidx].
    pose proof (get_times_row_cases tth ttm dict day_col time_col r) as Hc.
    rewrite Hidx in Hc. destruct Hc as (o & Ho & _). eauto. }
  exists out. split; [done |].
  split; [by eapply res_mapM_length |].
  intros i r o Hr Ho.
  destruct (res_mapM_Ok_lookup _ _ _ _ _ Hout Hr) as (o' & Ho' & Hrow).
  assert (o' = o) as -> by congruence.
  pose proof (get_times_row_cases tth ttm dict day_col time_col r) as Hc.
  destruct (dict !! pat_key r); [| congruence].
  destruct Hc as (o2 & Ho2 & Hk & Hf). by assert (o2 = o) as -> by congruence.
Qed.

Lemma get_times_keeps_rows_witness :
  exists out,
    get_times Examples.one_hour Examples.ninety_minutes
      [Examples.times_known; Examples.times_known] Examples.times_dict2
      (Some day) (Some time) = Ok out
    /\ length out = 2%nat
    /\ forall i r o,
         [Examples.times_known; Examples.times_known] !! i = Some r ->
         out !! i = Some o ->
         o_pat_key o = pat_key r /\ o_ftr o = ftr r.
Proof.
  apply (get_times_keeps_rows Examples.one_hour Examples.ninety_minutes
           [Examples.times_known; Examples.times_known] Examples.times_dict2
           (Some day) (Some time)).
  intros r Hr. rewrite !elem_of_cons, elem_of_nil in Hr.
  destruct Hr as [-> | [-> | []]]; by eexists.
Defined.

End GetTimesMore.

(** ** [get_timing]: joins, anchoring, times of day *)

Section PipelineMore.

Import Dask Pipeline.

Lemma get_None_fresh {K V} `{EqDecision K} (d : list (K * V)) (k : K) :
  k ∉ d.*1 -> PyDict.get d k = None.
Proof.
  induction d as [| [k' v'] d IH]; simpl; [done |].
  rewrite not_elem_of_cons. intros [Hne Hk].
  rewrite decide_False by done. by apply IH.
Qed.

(** What [get_timing] returns for a row, on any object whose two tables
    are futures and whose level is a key of both lookups. *)
Lemma get_timing_row_eval
    (self : parquets_dask) (day_col : option (row -> Z)) (end_of_visit : bool)
    (time_col : option (row -> string)) (r : row)
    (vt : gmap Z Z) (idt : gmap Z id_row) (mult secs : Z) :
  visit_timing self = Future {| col_name := agg_level self; col_vals := vt |} ->
  id self = Future idt ->
  PyDict.get (from_days self) (agg_level self) = Some mult ->
  PyDict.get (from_seconds self) (agg_level self) = Some secs ->
  get_timing_row self day_col end_of_visit time_col r =
  Ok {| t_pat_key := pat_key r; t_ftr := ftr r;
        t_agg :=
          let base := from_option of_int None (vt !! pat_key r) in
          let base :=
            if end_of_visit then
              cell_add base
                ((fun l => l * Qc_of_Z mult)%Qc <$>
                   ((fun ir => Qc_of_Z (los ir)) <$> idt !! pat_key r))
            else base in
          match day_col with
          | None => base
          | Some dc =>
              let with_day := cell_add base (of_int (dc r * mult)) in
              match time_col with
              | None => with_day
              | Some tc =>
                  cell_add with_day
                    ((fun v => v / Qc_of_Z secs)%Qc <$>
                       ((fun v : nat => Qc_of_Z (Z.of_nat v)) <$>
                          PyDict.get (time_dict self) (tc r)))
              end
          end |}.
Proof.
  intros Hvt Hid Hdays Hsecs.
  unfold get_timing_row, PyDict.getitem, timing_column.
  rewrite Hvt, Hid, Hdays, Hsecs. cbn [result res_bind col_name col_vals].
  rewrite decide_True by done.
  destruct end_of_visit, day_col as [dc |], time_col as [tc |]; reflexivity.
Qed.

(** The object that [__init__] builds, with the entries of its two
    lookups for its level. *)
Lemma init_fields id_table agg :
  agg ∈ agg_lvls ->
  exists self mult secs,
    init id_table agg = Ok self
    /\ agg_level self = agg
    /\ visit_timing self =
       Future {| col_name := agg_level self;
                 col_vals := (fun r => days_from_index r * mult) <$> id_table |}
    /\ id self = Future id_table
    /\ time_dict self = build_time_dict
    /\ PyDict.get (from_days self) (agg_level self) = Some mult
    /\ PyDict.get (from_seconds self) (agg_level self) = Some secs
    /\ 0 < secs /\ mult * secs = 86400.
Proof.
  intros Hagg.
  destruct (init_ok id_table agg Hagg) as (mult & Hget & Hinit).
  destruct (from_days_levels agg Hagg) as (mult' & Hget' & Hm).
  assert (mult' = mult) as -> by congruence.
  destruct (from_seconds_levels agg Hagg) as (secs & Hsecs & Hs).
  assert (Harith : 0 < secs /\ mult * secs = 86400).
  { clear -Hm Hs.
    destruct Hm as [[-> ->] | [[-> ->] | [-> ->]]];
      destruct Hs as [[Hs ->] | [[Hs ->] | [Hs ->]]];
      try discriminate Hs; lia. }
  eexists _, mult, secs. split; [exact Hinit |].
  split; [reflexivity |]. split; [reflexivity |]. split; [reflexivity |].
  split; [reflexivity |]. split; [exact Hget |]. split; [exact Hsecs |].
  exact Harith.
Qed.

(** X5.  With visit-end anchoring the length of stay counts like days: the
    timeline value is (index offset + length of stay + day offset) times
    the multiplier of the level. *)
Theorem timing_anchored_to_visit_end
    (id_table : gmap Z id_row) (agg : string) (dc : row -> Z) (r : row)
    (ir : id_row)
    (Hagg : agg ∈ agg_lvls) (Hir : id_table !! pat_key r = Some ir) :
  exists self mult,
    init id_table agg = Ok self
    /\ PyDict.get (from_days self) agg = Some mult
    /\ get_timing_row self (Some dc) true None r =
       Ok {| t_pat_key := pat_key r; t_ftr := ftr r;
             t_agg := Some (Qc_of_Z ((days_from_index ir + los ir + dc r) * mult)) |}.
Proof.
  destruct (init_fields id_table agg Hagg)
    as (self & mult & secs & Hinit & Hlvl & Hvt & Hid & _ & Hdays & Hsecs & _).
  exists self, mult. split; [exact Hinit |].
  split; [by rewrite <- Hlvl |].
  rewrite (get_timing_row_eval self _ _ _ r _ _ mult secs Hvt Hid Hdays Hsecs).
  rewrite lookup_fmap, Hir. cbn.
  do 3 f_equal. rewrite <- Z2Qc_inj_mul, <- !Z2Qc_inj_add. f_equal. ring.
Qed.

Lemma timing_anchored_to_visit_end_witness :
  exists self mult,
    init Examples.visits "hfi" = Ok self
    /\ PyDict.get (from_days self) "hfi" = Some mult
    /\ get_timing_row self (Some day) true None Examples.record =
       Ok {| t_pat_key := 7; t_ftr := "vtl0";
             t_agg := Some (Qc_of_Z ((2 + 4 + 1) * mult)) |}.
Proof.
  apply (timing_anchored_to_visit_end Examples.visits "hfi" day Examples.record
           {| days_from_index := 2; los := 4 |}).
  - unfold agg_lvls. rewrite !elem_of_cons. auto.
  - reflexivity.
Defined.

(** X6.  The joins are left joins: for a record whose visit is not in the
    visit table [get_timing] does not raise, and the timeline value is NaN
    whatever the columns and the anchoring. *)
Theorem timing_of_unknown_visit_is_nan
    (id_table : gmap Z id_row) (agg : string) (day_col : option (row -> Z))
    (end_of_visit : bool) (time_col : option (row -> string)) (r : row)
    (Hagg : agg ∈ agg_lvls) (Hir : id_table !! pat_key r = None) :
  exists self,
    init id_table agg = Ok self
    /\ get_timing_row self day_col end_of_visit time_col r =
       Ok {| t_pat_key := pat_key r; t_ftr := ftr r; t_agg := None |}.
Proof.
  destruct (init_fields id_table agg Hagg)
    as (self & mult & secs & Hinit & Hlvl & Hvt & Hid & _ & Hdays & Hsecs & _).
  exists self. split; [exact Hinit |].
  rewrite (get_timing_row_eval self _ _ _ r _ _ mult secs Hvt Hid Hdays Hsecs).
  rewrite lookup_fmap, Hir.
  destruct end_of_visit, day_col as [dc |], time_col as [tc |]; reflexivity.
Qed.

Lemma timing_of_unknown_visit_is_nan_witness :
  exists self,
    init Examples.visits "mfi" = Ok self
    /\ get_timing_row self (Some day) true (Some time) Examples.record_unknown =
       Ok {| t_pat_key := 8; t_ftr := "vtl0"; t_agg := None |}.
Proof.
  apply (timing_of_unknown_visit_is_nan Examples.visits "mfi" (Some day) true
           (Some time) Examples.record_unknown).
  - unfold agg_lvls. rewrite !elem_of_cons. auto.
  - reflexivity.
Defined.

(** X7.  Without a day column [get_timing] returns before it reads the time
    column: the timeline value is the base offset of the visit (plus the
    length of stay with anchoring) times the multiplier, with or without
    a time column. *)
Theorem timing_without_day_column_ignores_time
    (id_table : gmap Z id_row) (agg : string) (end_of_visit : bool)
    (time_col : option (row -> string)) (r : row) (ir : id_row)
    (Hagg : agg ∈ agg_lvls) (Hir : id_table !! pat_key r = Some ir) :
  exists self mult,
    init id_table agg = Ok self
    /\ PyDict.get (from_days self) agg = Some mult
    /\ get_timing_row self None end_of_visit time_col r =
       Ok {| t_pat_key := pat_key r; t_ftr := ftr r;
             t_agg := Some (Qc_of_Z
               ((days_from_index ir + (if end_of_visit then los ir else 0)) * mult)) |}.
Proof.
  destruct (init_fields id_table agg Hagg)
    as (self & mult & secs & Hinit & Hlvl & Hvt & Hid & _ & Hdays & Hsecs & _).
  exists self, mult. split; [exact Hinit |].
  split; [by rewrite <- Hlvl |].
  rewrite (get_timing_row_eval self _ _ _ r _ _ mult secs Hvt Hid Hdays Hsecs).
  rewrite lookup_fmap, Hir. destruct end_of_visit; cbn.
  - do 3 f_equal. rewrite <- Z2Qc_inj_mul, <- Z2Qc_inj_add. f_equal. ring.
  - unfold of_int.
    by replace ((days_from_index ir + 0) * mult) with (days_from_index ir * mult)
      by ring.
Qed.

Lemma timing_without_day_column_ignores_time_witness :
  exists self mult,
    init Examples.visits "dfi" = Ok self
    /\ PyDict.get (from_days self) "dfi" = Some mult
    /\ get_timing_row self None false (Some time) Examples.record =
       Ok {| t_pat_key := 7; t_ftr := "vtl0";
             t_agg := Some (Qc_of_Z ((2 + 0) * mult)) |}.
Proof.
  apply (timing_without_day_column_ignores_time Examples.visits "dfi" false
           (Some time) Examples.record {| days_from_index := 2; los := 4 |}).
  - unfold agg_lvls. rewrite !elem_of_cons. auto.
  - reflexivity.
Defined.

(** X8.  A level other than "dfi", "hfi", "mfi" makes [__init__] raise
    KeyError, at the first lookup of the multiplier. *)
Theorem init_rejects_unknown_level
    (id_table : gmap Z id_row) (agg : string) (Hagg : agg ∉ agg_lvls) :
  init id_table agg = Raise KeyError.
Proof.
  unfold init, get_visit_timing, PyDict.getitem.
  cbn -[PyDict.of_pairs build_time_dict].
  rewrite (get_None_fresh _ agg); [reflexivity |].
  exact Hagg.
Qed.

Lemma init_rejects_unknown_level_witness :
  init Examples.visits "sfi" = Raise KeyError.
Proof.
  apply init_rejects_unknown_level.
  unfold agg_lvls. rewrite !not_elem_of_cons.
  repeat split; try discriminate. apply not_elem_of_nil.
Defined.

End PipelineMore.

(** ** [get_timing]: times of day and the order of the timeline *)

Section PipelineTimes.

Import Dask Pipeline.

Lemma append_length (s1 s2 : string) :
  String.length (s1 +:+ s2) = (String.length s1 + String.length s2)%nat.
Proof.
  induction s1 as [| c s1 IH]; [done |].
  unfold String.append; fold String.append. simpl. by rewrite IH.
Qed.

Lemma hms_length h m s :
  (h < 60)%nat -> (m < 60)%nat -> (s < 60)%nat ->
  String.length (hms (h, m, s)) = 8%nat.
Proof.
  intros Hh Hm Hs. unfold hms.
  rewrite !append_length, !fmt02_length by done. reflexivity.
Qed.

Lemma time_stamps_elem_length (s : string) :
  s ∈ time_stamps -> String.length s = 8%nat.
Proof.
  intros Hin. apply list_elem_of_lookup in Hin as [i Hi].
  pose proof (lookup_lt_Some _ _ _ Hi) as Hlt.
  rewrite time_stamps_length in Hlt.
  destruct (time_stamps_index i Hlt) as (h & m & c & Hh & Hm & Hc & ->).
  rewrite time_stamps_lookup in Hi by done. injection Hi as <-.
  apply hms_length; lia.
Qed.

Lemma time_dict_keys : build_time_dict.*1 = time_stamps.
Proof.
  unfold build_time_dict, range.
  assert (Hfst : (zip time_stamps (seq 0 (length time_stamps))).*1 = time_stamps).
  { apply fst_zip. by rewrite length_seq. }
  rewrite of_pairs_nodup; [exact Hfst |].
  rewrite Hfst. apply time_stamps_nodup.
Qed.

(** The table has no entry for a string that is not eight characters
    long. *)
Lemma time_dict_other_length (s : string) :
  String.length s <> 8%nat -> PyDict.get build_time_dict s = None.
Proof.
  intros Hlen. apply get_None_fresh. rewrite time_dict_keys.
  intros Hin. by apply time_stamps_elem_length in Hin.
Qed.

(** X9.  The keys of the time table are zero-padded and eight characters
    long: for a record whose time of day has another length (one that is
    not padded, say) [get_timing] does not raise and the timeline value is
    NaN. *)
Theorem timing_of_unpadded_time_is_nan
    (id_table : gmap Z id_row) (agg : string) (dc : row -> Z)
    (tc : row -> string) (end_of_visit : bool) (r : row)
    (Hagg : agg ∈ agg_lvls) (Hlen : String.length (tc r) <> 8%nat) :
  exists self,
    init id_table agg = Ok self
    /\ PyDict.get (time_dict self) (tc r) = None
    /\ get_timing_row self (Some dc) end_of_visit (Some tc) r =
       Ok {| t_pat_key := pat_key r; t_ftr := ftr r; t_agg := None |}.
Proof.
  destruct (init_fields id_table agg Hagg)
    as (self & mult & secs & Hinit & Hlvl & Hvt & Hid & Htd & Hdays & Hsecs & _).
  assert (Hnone : PyDict.get (time_dict self) (tc r) = None).
  { rewrite Htd. by apply time_dict_other_length. }
  exists self. split; [exact Hinit |]. split; [exact Hnone |].
  rewrite (get_timing_row_eval self _ _ _ r _ _ mult secs Hvt Hid Hdays Hsecs).
  cbn zeta. rewrite Hnone. do 2 f_equal.
  by destruct (cell_add _ (of_int (dc r * mult))).
Qed.

Lemma timing_of_unpadded_time_is_nan_witness :
  exists self,
    init Examples.visits "mfi" = Ok self
    /\ PyDict.get (time_dict self) (time Examples.record_unpadded) = None
    /\ get_timing_row self (Some day) false (Some time) Examples.record_unpadded =
       Ok {| t_pat_key := 7; t_ftr := "vtl0"; t_agg := None |}.
Proof.
  apply (timing_of_unpadded_time_is_nan Examples.visits "mfi" day time false
           Examples.record_unpadded).
  - unfold agg_lvls. rewrite !elem_of_cons. auto.
  - simpl. lia.
Defined.

(** The timeline value of a record with a day and a time of day, as a
    quotient: the seconds from the index event, over the seconds in the
    unit of the level. *)
Lemma timeline_as_quotient (i d mult secs : Z) (sec : nat) :
  0 < secs -> mult * secs = 86400 ->
  (Qc_of_Z (i * mult) + Qc_of_Z (d * mult)
   + Qc_of_Z (Z.of_nat sec) / Qc_of_Z secs)%Qc
  = (Qc_of_Z ((i + d) * 86400 + Z.of_nat sec) / Qc_of_Z secs)%Qc.
Proof.
  intros Hpos Hprod.
  assert (Hnz : Qc_of_Z secs <> 0%Qc).
  { rewrite <- Z2Qc_inj_0. intros H%Z2Qc_inj. lia. }
  rewrite <- Hprod.
  rewrite !Z2Qc_inj_add, !Z2Qc_inj_mul, !Z2Qc_inj_add.
  field. exact Hnz.
Qed.

Lemma quotient_le (a b secs : Z) :
  0 < secs ->
  (Qc_of_Z a / Qc_of_Z secs <= Qc_of_Z b / Qc_of_Z secs)%Qc <-> a <= b.
Proof.
  intros Hpos.
  assert (Hq : (0 < Qc_of_Z secs)%Qc).
  { pose proof (proj1 (Z2Qc_inj_lt 0 secs) Hpos) as Hlt.
    by rewrite Z2Qc_inj_0 in Hlt. }
  assert (Hnz : Qc_of_Z secs <> 0%Qc).
  { intros H. rewrite H in Hq. by apply Qclt_not_eq in Hq. }
  rewrite (Qcmult_le_mono_pos_r _ _ (Qc_of_Z secs) Hq).
  unfold Qcdiv. rewrite <- !Qcmult_assoc, !(Qcmult_comm (/ _)), !Qcmult_inv_r by done.
  rewrite !Qcmult_1_r. symmetry. apply Z2Qc_inj_le.
Qed.

(** X10.  The timeline keeps the order of time.  For two records of one visit
    with days d1, d2 and times of day h1:m1:s1, h2:m2:s2, at any level,
    the timeline value of the first is at most that of the second exactly
    when d1 days and the seconds of the first time of day are at most d2
    days and the seconds of the second. *)
Theorem timeline_keeps_chronological_order
    (id_table : gmap Z id_row) (agg : string) (dc : row -> Z)
    (tc : row -> string) (r1 r2 : row) (ir : id_row)
    (h1 m1 s1 h2 m2 s2 : nat)
    (Hagg : agg ∈ agg_lvls)
    (Hk : pat_key r2 = pat_key r1)
    (Hir : id_table !! pat_key r1 = Some ir)
    (Hh1 : (h1 < 24)%nat) (Hm1 : (m1 < 60)%nat) (Hs1 : (s1 < 60)%nat)
    (Hh2 : (h2 < 24)%nat) (Hm2 : (m2 < 60)%nat) (Hs2 : (s2 < 60)%nat)
    (Ht1 : tc r1 = hms (h1, m1, s1)) (Ht2 : tc r2 = hms (h2, m2, s2)) :
  exists self v1 v2,
    init id_table agg = Ok self
    /\ get_timing_row self (Some dc) false (Some tc) r1 =
       Ok {| t_pat_key := pat_key r1; t_ftr := ftr r1; t_agg := Some v1 |}
    /\ get_timing_row self (Some dc) false (Some tc) r2 =
       Ok {| t_pat_key := pat_key r2; t_ftr := ftr r2; t_agg := Some v2 |}
    /\ ((v1 <= v2)%Qc <->
        dc r1 * 86400 + Z.of_nat (second_of_day h1 m1 s1)
        <= dc r2 * 86400 + Z.of_nat (second_of_day h2 m2 s2)).
Proof.
  destruct (init_fields id_table agg Hagg)
    as (self & mult & secs & Hinit & Hlvl & Hvt & Hid & Htd & Hdays & Hsecs
        & Hpos & Hprod).
  assert (Htd1 : PyDict.get (time_dict self) (tc r1) = Some (second_of_day h1 m1 s1)).
  { rewrite Htd, Ht1. by apply time_dict_lookup. }
  assert (Htd2 : PyDict.get (time_dict self) (tc r2) = Some (second_of_day h2 m2 s2)).
  { rewrite Htd, Ht2. by apply time_dict_lookup. }
  exists self. eexists _, _. split; [exact Hinit |].
  rewrite !(get_timing_row_eval self _ _ _ _ _ _ mult secs Hvt Hid Hdays Hsecs).
  cbn zeta. rewrite Htd1, Htd2, Hk, lookup_fmap, Hir. cbn.
  split; [reflexivity |]. split; [reflexivity |].
  rewrite !timeline_as_quotient by done.
  rewrite quotient_le by done. lia.
Qed.

Lemma timeline_keeps_chronological_order_witness :
  exists self v1 v2,
    init Examples.visits "hfi" = Ok self
    /\ get_timing_row self (Some day) false (Some time) Examples.record =
       Ok {| t_pat_key := 7; t_ftr := "vtl0"; t_agg := Some v1 |}
    /\ get_timing_row self (Some day) false (Some time) Examples.record_later =
       Ok {| t_pat_key := 7; t_ftr := "vtl3"; t_agg := Some v2 |}
    /\ ((v1 <= v2)%Qc <->
        1 * 86400 + Z.of_nat (second_of_day 0 1 0)
        <= 1 * 86400 + Z.of_nat (second_of_day 0 1 1)).
Proof.
  apply (timeline_keeps_chronological_order Examples.visits "hfi" day time
           Examples.record Examples.record_later
           {| days_from_index := 2; los := 4 |} 0 1 0 0 1 1).
  - unfold agg_lvls. rewrite !elem_of_cons. auto.
  - reflexivity.
  - reflexivity.
  - lia.
  - lia.
  - lia.
  - lia.
  - lia.
  - lia.
  - reflexivity.
  - reflexivity.
Defined.

(** X11.  On an object that [__init__] built, [get_timing] does not raise: it
    returns one row per input row, in order, with the key and the feature
    of that row, also for visits or times of day that the lookups
    lack. *)
Theorem get_timing_keeps_rows
    (id_table : gmap Z id_row) (agg : string) (df : list row)
    (day_col : option (row -> Z)) (end_of_visit : bool)
    (time_col : option (row -> string))
    (Hagg : agg ∈ agg_lvls) :
  exists self out,
    init id_table agg = Ok self
    /\ get_timing self df day_col end_of_visit time_col = Ok out
    /\ length out = length df
    /\ forall i r o, df !! i = Some r -> out !! i = Some o ->
         t_pat_key o = pat_key r /\ t_ftr o = ftr r.
Proof.
  destruct (init_fields id_table agg Hagg)
    as (self & mult & secs & Hinit & Hlvl & Hvt & Hid & _ & Hdays & Hsecs & _).
  exists self. unfold get_timing.
  destruct (res_mapM_all_Ok
              (get_timing_row self day_col end_of_visit time_col) df)
    as [out Hout].
  { intros r _.
    rewrite (get_timing_row_eval self _ _ _ r _ _ mult secs Hvt Hid Hdays Hsecs).
    eauto. }
  exists out. split; [exact Hinit |]. split; [exact Hout |].
  split; [by eapply res_mapM_length |].
  intros i r o Hr Ho.
  destruct (res_mapM_Ok_lookup _ _ _ _ _ Hout Hr) as (o' & Ho' & Hrow).
  assert (o' = o) as -> by congruence.
  rewrite (get_timing_row_eval self _ _ _ r _ _ mult secs Hvt Hid Hdays Hsecs)
    in Hrow.
  injection Hrow as <-. done.
Qed.

Lemma get_timing_keeps_rows_witness :
  exists self out,
    init Examples.visits "mfi" = Ok self
    /\ get_timing self [Examples.record; Examples.record_unknown]
         (Some day) true (Some time) = Ok out
    /\ length out = 2%nat
    /\ forall i r o,
         [Examples.record; Examples.record_unknown] !! i = Some r ->
         out !! i = Some o ->
         t_pat_key o = pat_key r /\ t_ftr o = ftr r.
Proof.
  apply (get_timing_keeps_rows Examples.visits "mfi"
           [Examples.record; Examples.record_unknown] (Some day) true (Some time)).
  unfold agg_lvls. rewrite !elem_of_cons. auto.
Defined.

End PipelineTimes.

(** ** Dictionaries built from pairs *)

Section PyDictMore.

Context {K V : Type} `{EqDecision K}.
Implicit Types (d l : list (K * V)) (k : K) (v : V).

Lemma get_app l1 l2 k :
  PyDict.get (l1 ++ l2) k =
  match PyDict.get l1 k with
  | Some v => Some v
  | None => PyDict.get l2 k
  end.
Proof.
  induction l1 as [| [k' v'] l1 IH]; simpl; [done |].
  by destruct (decide (k = k')).
Qed.

Lemma get_set d k v k' :
  PyDict.get (PyDict.set d k v) k' =
  if decide (k' = k) then Some v else PyDict.get d k'.
Proof.
  induction d as [| [k0 v0] d IH]; simpl.
  - done.
  - destruct (decide (k = k0)) as [-> | Hne]; simpl.
    + destruct (decide (k' = k0)); done.
    + rewrite IH. destruct (decide (k' = k0)) as [-> | ?]; [| done].
      by rewrite decide_False by done.
Qed.

(** [dict(pairs)] gives a key its last value in [pairs]. *)
Lemma get_of_pairs l k :
  PyDict.get (PyDict.of_pairs l) k = PyDict.get (reverse l) k.
Proof.
  unfold PyDict.of_pairs.
  assert (Hgen : forall acc,
    PyDict.get (foldl (fun d kv => PyDict.set d kv.1 kv.2) acc l) k =
    match PyDict.get (reverse l) k with
    | Some v => Some v
    | None => PyDict.get acc k
    end).
  { induction l as [| [k' v'] l IH]; intros acc; simpl; [done |].
    rewrite IH, reverse_cons, get_app, get_set. simpl.
    destruct (PyDict.get (reverse l) k); [done |].
    by destruct (decide (k = k')). }
  rewrite Hgen. simpl. by destruct (PyDict.get (reverse l) k).
Qed.

Lemma get_None_elem d k : PyDict.get d k = None -> k ∉ d.*1.
Proof.
  induction d as [| [k' v'] d IH]; simpl; [intros _; apply not_elem_of_nil |].
  destruct (decide (k = k')) as [-> | Hne]; [done |].
  intros Hg. rewrite not_elem_of_cons. split; [done | by apply IH].
Qed.

Lemma get_elem_nodup d k v :
  NoDup d.*1 -> (k, v) ∈ d -> PyDict.get d k = Some v.
Proof.
  intros Hnd Hin. apply list_elem_of_lookup in Hin as [i Hi].
  by eapply get_lookup.
Qed.

Lemma get_reverse_nodup d k :
  NoDup d.*1 -> PyDict.get (reverse d) k = PyDict.get d k.
Proof.
  intros Hnd. destruct (PyDict.get d k) as [v |] eqn:Hg.
  - apply get_elem_nodup.
    + rewrite fmap_reverse, reverse_Permutation. exact Hnd.
    + apply elem_of_reverse. by apply get_Some_elem.
  - apply get_None_fresh. rewrite fmap_reverse, elem_of_reverse.
    by apply get_None_elem.
Qed.

Lemma zip_flatten (ds : list (list (K * V))) :
  zip (FeatureMerge.flatten (@PyDict.keys K V <$> ds))
      (FeatureMerge.flatten (@PyDict.values K V <$> ds)) =
  concat ds.
Proof.
  unfold FeatureMerge.flatten.
  induction ds as [| d ds IH]; [done |].
  rewrite !fmap_cons, !concat_cons.
  rewrite zip_with_app.
  - fold (zip (concat (PyDict.keys <$> ds)) (concat (PyDict.values <$> ds))).
    rewrite IH. unfold PyDict.keys, PyDict.values.
    by rewrite zip_fst_snd.
  - unfold PyDict.keys, PyDict.values. by rewrite !length_fmap.
Qed.

Lemma get_concat_last (ds1 ds2 : list (list (K * V))) d k v :
  NoDup d.*1 -> PyDict.get d k = Some v ->
  (forall d', d' ∈ ds2 -> PyDict.get d' k = None) ->
  PyDict.get (PyDict.of_pairs (concat (ds1 ++ d :: ds2))) k = Some v.
Proof.
  intros Hnd Hg Hlater.
  rewrite get_of_pairs, concat_app, concat_cons, !reverse_app, !get_app.
  assert (Hnone : PyDict.get (reverse (concat ds2)) k = None).
  { apply get_None_fresh. rewrite fmap_reverse, elem_of_reverse.
    intros Hin. apply list_elem_of_fmap in Hin as ([k' v'] & -> & Hin).
    apply list_elem_of_In, in_concat in Hin as (d' & Hd' & Hin).
    apply list_elem_of_In in Hd', Hin.
    pose proof (Hlater d' Hd') as Hn. apply get_None_elem in Hn.
    apply Hn. apply list_elem_of_fmap. by exists (k', v'). }
  by rewrite Hnone, get_reverse_nodup, Hg.
Qed.

End PyDictMore.

(** ** [all_df_to_feat], [compute_kwargs] and [condense_features] *)

Section FeatureMergeFacts.

Import FeatureCodec FeatureMerge.

Implicit Types (q_str : nat -> list (string * cell) -> nat -> string).

Lemma zip_fmap_fmap {A B C} (g : A -> B) (h : A -> C) (l : list A) :
  zip (g <$> l) (h <$> l) = (fun x => (g x, h x)) <$> l.
Proof. induction l as [| x l IH]; csimpl; [done |]. by f_equal. Qed.

Lemma zip_fmap_self {A B} (g : A -> B) (l : list A) :
  zip (g <$> l) l = (fun x => (g x, x)) <$> l.
Proof. induction l as [| x l IH]; csimpl; [done |]. by f_equal. Qed.

Lemma token_keys_nodup p n : NoDup (token p <$> seq 0 n).
Proof.
  apply NoDup_fmap_2; [| apply NoDup_seq].
  intros i j Heq. unfold token in Heq.
  apply (inj (String.append p)) in Heq. by apply (inj pretty) in Heq.
Qed.

Lemma col_to_features_keys texts p :
  (col_to_features texts p).*1 = token p <$> seq 0 (length (unique texts)).
Proof.
  rewrite col_to_features_zip. apply fst_zip.
  by rewrite length_fmap, length_seq.
Qed.

(** The merged dictionary is built from the chained per-table
    dictionaries. *)
Lemma all_df_to_feat_dicts q_str kws :
  (all_df_to_feat q_str kws).2 =
  PyDict.of_pairs
    (concat ((fun kw => (encode_table q_str (df kw) (feature_prefix kw)
                           (num_col_of kw) 5).2) <$> kws)).
Proof.
  unfold all_df_to_feat. cbv zeta. cbn [snd].
  rewrite zip_flatten, zip_fmap_self, <- list_fmap_compose.
  reflexivity.
Qed.

(** The coded tables are those of the per-table codec, under the final
    names. *)
Lemma all_df_to_feat_tables q_str kws :
  (all_df_to_feat q_str kws).1 =
  PyDict.of_pairs
    (zip final_names
       ((fun kw => (encode_table q_str (df kw) (feature_prefix kw)
                      (num_col_of kw) 5).1) <$> kws)).
Proof.
  unfold all_df_to_feat. cbv zeta. cbn [fst].
  rewrite zip_fmap_self, <- list_fmap_compose, zip_fmap_fmap,
    <- list_fmap_compose.
  reflexivity.
Qed.

Lemma merged_get q_str kws1 kw kws2 tok v :
  PyDict.get (encode_table q_str (df kw) (feature_prefix kw)
                (num_col_of kw) 5).2 tok = Some v ->
  (forall kw', kw' ∈ kws2 ->
     PyDict.get (encode_table q_str (df kw') (feature_prefix kw')
                   (num_col_of kw') 5).2 tok = None) ->
  PyDict.get (all_df_to_feat q_str (kws1 ++ kw :: kws2)).2 tok = Some v.
Proof.
  intros Hg Hlater. rewrite all_df_to_feat_dicts, fmap_app, fmap_cons.
  apply get_concat_last; [| exact Hg |].
  - unfold encode_table. cbn [snd]. rewrite col_to_features_keys.
    apply token_keys_nodup.
  - intros d' Hd'. apply list_elem_of_fmap in Hd' as (kw' & -> & Hin).
    by apply Hlater.
Qed.

(** A token that no table after some position can produce is not a key
    of the dictionaries of those tables. *)
Lemma later_tables_free q_str tok kws2 :
  Forall (fun kw' => forall j, tok <> token (feature_prefix kw') j) kws2 ->
  forall kw', kw' ∈ kws2 ->
    PyDict.get (encode_table q_str (df kw') (feature_prefix kw')
                  (num_col_of kw') 5).2 tok = None.
Proof.
  intros Hall kw' Hin. rewrite Forall_forall in Hall.
  apply get_None_fresh. unfold encode_table. cbn [snd].
  rewrite col_to_features_keys. intros Hel.
  apply list_elem_of_fmap in Hel as (j & Heq & _).
  by apply (Hall kw' Hin j).
Qed.

(** One row through the per-table codec. *)
Lemma encode_table_row q_str df p num_col buckets i r :
  df !! i = Some r ->
  exists ordinal,
    (encode_table q_str df p num_col buckets).1 !! i =
      Some {| c_pat_key := pat_key r; c_ftr := Some (token p ordinal) |}
    /\ PyDict.get (encode_table q_str df p num_col buckets).2 (token p ordinal) =
       Some (text r +:+ bucket_suffix q_str df num_col buckets i).
Proof.
  intros Hr. unfold encode_table. cbn [fst snd].
  set (out := df_to_features q_str df num_col buckets).
  set (t := text r +:+ bucket_suffix q_str df num_col buckets i).
  assert (Hout : out !! i = Some {| pat_key := pat_key r; text := t; num := num r |}).
  { by apply df_to_features_lookup. }
  assert (Hin : t ∈ text <$> out).
  { apply list_elem_of_fmap. eexists. split; [| eapply list_elem_of_lookup_2, Hout].
    done. }
  destruct (condense_lookup (text <$> out) p t Hin) as (ordinal & _ & Hinv & Hfwd).
  exists ordinal. split; [| exact Hfwd].
  unfold condense_features. rewrite list_lookup_fmap, Hout. simpl.
  by rewrite Hinv.
Qed.

Lemma encode_table_length q_str df p num_col buckets :
  length (encode_table q_str df p num_col buckets).1 = length df.
Proof.
  unfold encode_table, condense_features. cbn [fst]. rewrite length_fmap.
  unfold df_to_features. destruct num_col; [apply length_imap | done].
Qed.

(** X12.  [all_df_to_feat]: a token is looked up in the merged dictionary as in
    the last table whose own dictionary has it, and is absent when no
    table has it. *)
Theorem merged_dictionary_last_table_wins q_str kws tok :
  let dict_of kw :=
    (encode_table q_str (df kw) (feature_prefix kw) (num_col_of kw) 5).2 in
  ((forall kw, kw ∈ kws -> PyDict.get (dict_of kw) tok = None) ->
   PyDict.get (all_df_to_feat q_str kws).2 tok = None)
  /\ (forall kws1 kw kws2 v,
        kws = kws1 ++ kw :: kws2 ->
        PyDict.get (dict_of kw) tok = Some v ->
        (forall kw', kw' ∈ kws2 -> PyDict.get (dict_of kw') tok = None) ->
        PyDict.get (all_df_to_feat q_str kws).2 tok = Some v).
Proof.
  intros dict_of. split.
  - intros Hnone. rewrite all_df_to_feat_dicts, get_of_pairs.
    apply get_None_fresh. rewrite fmap_reverse, elem_of_reverse.
    intros Hin. apply list_elem_of_fmap in Hin as ([k' v'] & -> & Hin).
    apply list_elem_of_In, in_concat in Hin as (d' & Hd' & Hin).
    apply list_elem_of_In in Hd', Hin.
    apply list_elem_of_fmap in Hd' as (kw & -> & Hkw).
    pose proof (Hnone kw Hkw) as Hn. apply get_None_elem in Hn.
    apply Hn. apply list_elem_of_fmap. by exists (k', v').
  - intros kws1 kw kws2 v -> Hg Hlater. by apply merged_get.
Qed.

(** Two tables coded with the same prefix: the first token decodes to the
    text of the later table. *)
Lemma merged_dictionary_last_table_wins_witness :
  PyDict.get
    (all_df_to_feat Examples.no_buckets
       [Examples.labs_kw "lab"; Examples.bills_kw "lab"]).2 "lab0"
  = Some "bed"%string.
Proof.
  apply (proj2 (merged_dictionary_last_table_wins Examples.no_buckets
                  [Examples.labs_kw "lab"; Examples.bills_kw "lab"] "lab0")
           [Examples.labs_kw "lab"] (Examples.bills_kw "lab") [] "bed"%string).
  - reflexivity.
  - vm_compute. reflexivity.
  - intros kw' Hin. by apply elem_of_nil in Hin.
Defined.

(** X13.  [compute_kwargs] with [all_df_to_feat]: with the six tables and the
    prefixes of the class, every table is returned under its final name
    with as many rows as it had, and every row carries a token that the
    merged dictionary decodes to the row's own text (with its bucket
    suffix): tokens of different tables never collide. *)
Theorem class_tables_decode_in_merged_dictionary q_str
    (vitals bill genlab proc diag lab_res : list row) j name kw :
  let kws := compute_kwargs vitals bill genlab proc diag lab_res in
  final_names !! j = Some name ->
  kws !! j = Some kw ->
  exists coded,
    PyDict.get (all_df_to_feat q_str kws).1 name = Some coded
    /\ length coded = length (df kw)
    /\ forall i r,
         df kw !! i = Some r ->
         exists tok,
           coded !! i = Some {| c_pat_key := pat_key r; c_ftr := Some tok |}
           /\ PyDict.get (all_df_to_feat q_str kws).2 tok =
              Some (text r +:+ bucket_suffix q_str (df kw) (num_col_of kw) 5 i).
Proof.
  intros kws Hname Hkw.
  exists (encode_table q_str (df kw) (feature_prefix kw) (num_col_of kw) 5).1.
  split; [| split; [apply encode_table_length |]].
  - rewrite all_df_to_feat_tables.
    unfold kws, compute_kwargs in *. cbn [zip5 text_cols feat_prefix num_col
      time_cols fmap list_fmap] in *.
    do 6 (destruct j as [| j];
      [cbn in Hname, Hkw; injection Hname as <-; injection Hkw as <-;
       cbn [fmap list_fmap df feature_prefix kw_num_col num_col_of];
       repeat match goal with
              | |- context [encode_table ?a ?b ?c ?d ?e] =>
                  generalize (encode_table a b c d e); intros ?
              end;
       vm_compute; reflexivity |]).
    cbn in Hname. discriminate Hname.
  - intros i r Hr.
    destruct (encode_table_row q_str (df kw) (feature_prefix kw)
                (num_col_of kw) 5 i r Hr) as (ordinal & Hc & Hd).
    exists (token (feature_prefix kw) ordinal). split; [exact Hc |].
    rewrite <- (take_drop_middle kws j kw Hkw).
    apply merged_get; [exact Hd |]. apply later_tables_free.
    clear Hc Hd Hr Hname.
    unfold kws, compute_kwargs in *. cbn [zip5 text_cols feat_prefix num_col
      time_cols fmap list_fmap] in *.
    do 6 (destruct j as [| j];
      [cbn in Hkw; injection Hkw as <-; cbn [drop feature_prefix];
       repeat constructor; intros j' H; unfold token in H;
       cbn [String.append] in H; discriminate H |]).
    cbn in Hkw. discriminate Hkw.
Qed.

(** The lab table as the vitals table, the bill table, and four empty
    tables. *)
Lemma class_tables_decode_in_merged_dictionary_witness :
  let kws := compute_kwargs Examples.labs Examples.bills [] [] [] [] in
  let kw :=
    {| df := Examples.bills; text_col := "std_chg_desc";
       feature_prefix := "bill"; kw_num_col := None;
       kw_time_cols := Some ["serv_day"%string] |} in
  exists coded,
    PyDict.get (all_df_to_feat Examples.no_buckets kws).1 "bill" = Some coded
    /\ length coded = length (df kw)
    /\ forall i r,
         df kw !! i = Some r ->
         exists tok,
           coded !! i = Some {| c_pat_key := pat_key r; c_ftr := Some tok |}
           /\ PyDict.get (all_df_to_feat Examples.no_buckets kws).2 tok =
              Some (text r +:+
                    bucket_suffix Examples.no_buckets (df kw) (num_col_of kw) 5 i).
Proof.
  intros kws kw.
  apply (class_tables_decode_in_merged_dictionary Examples.no_buckets
           Examples.labs Examples.bills [] [] [] [] 1 "bill" kw); reflexivity.
Defined.

Lemma fst_zip_take {A B} (l : list A) (k : list B) :
  (zip l k).*1 = take (length k) l.
Proof.
  revert k. induction l as [| x l IH]; intros [| y k]; csimpl; try done.
  by rewrite IH.
Qed.

(** X14.  [all_df_to_feat] names the coded tables by position: the result has
    the first final names, one per table given, and a table beyond the
    sixth is not returned. *)
Theorem all_df_to_feat_table_names q_str kws :
  PyDict.keys (all_df_to_feat q_str kws).1 = take (length kws) final_names
  /\ length (all_df_to_feat q_str kws).1 = (length kws `min` 6)%nat.
Proof.
  rewrite all_df_to_feat_tables.
  set (out := (fun kw => (encode_table q_str (df kw) (feature_prefix kw)
                            (num_col_of kw) 5).1) <$> kws).
  assert (Hlen : length out = length kws) by (unfold out; by rewrite length_fmap).
  assert (Hnd : NoDup (zip final_names out).*1).
  { rewrite fst_zip_take. eapply sublist_NoDup; [| apply sublist_take].
    apply (bool_decide_unpack _). by vm_compute. }
  rewrite of_pairs_nodup by exact Hnd. unfold PyDict.keys.
  rewrite fst_zip_take, Hlen. split; [done |].
  rewrite length_zip, Hlen. unfold final_names. simpl length. lia.
Qed.

(** X15.  [condense_features] with any dictionary: the row keeps its key; the
    token written for a row is one that the dictionary decodes to the
    row's text, and the row gets NaN exactly when its text is not a value
    of the dictionary. *)
Theorem condense_features_against_any_dictionary
    (df : list row) (code_dict : PyDict.t string string) i r :
  NoDup (PyDict.keys code_dict) ->
  df !! i = Some r ->
  exists c,
    condense_features df code_dict !! i = Some c
    /\ c_pat_key c = pat_key r
    /\ match c_ftr c with
       | Some tok => PyDict.get code_dict tok = Some (text r)
       | None => text r ∉ PyDict.values code_dict
       end.
Proof.
  intros Hnd Hr. unfold condense_features.
  rewrite list_lookup_fmap, Hr. eexists. split; [reflexivity |].
  split; [reflexivity |]. cbn [c_ftr].
  rewrite get_of_pairs. unfold PyDict.items.
  destruct (PyDict.get _ (text r)) as [tok |] eqn:Hg.
  - apply get_Some_elem, elem_of_reverse, list_elem_of_fmap in Hg
      as ([k v] & Heq & Hin).
    simpl in Heq. injection Heq as <- <-.
    by apply get_elem_nodup.
  - apply get_None_elem in Hg. intros Hin. apply Hg.
    rewrite fmap_reverse, elem_of_reverse, <- list_fmap_compose.
    exact Hin.
Qed.

(** A one-entry dictionary against the lab table: the row with the known
    text gets its token, the other row gets NaN. *)
Lemma condense_features_against_any_dictionary_witness :
  (exists c,
     condense_features Examples.labs Examples.partial_dict !! 0%nat = Some c
     /\ c_pat_key c = 7
     /\ PyDict.get Examples.partial_dict "lab0" = Some "glucose"%string
     /\ c_ftr c = Some "lab0"%string)
  /\ (exists c,
        condense_features Examples.labs Examples.partial_dict !! 1%nat = Some c
        /\ c_ftr c = None
        /\ "sodium"%string ∉ PyDict.values Examples.partial_dict).
Proof.
  split.
  - destruct (condense_features_against_any_dictionary Examples.labs
                Examples.partial_dict 0
                {| pat_key := 7; text := "glucose"; num := Some (Qc_of_Z 5) |})
      as (c & Hc & Hk & Hm).
    + apply (bool_decide_unpack _). by vm_compute.
    + reflexivity.
    + exists c. vm_compute in Hc. injection Hc as <-. by repeat split.
  - destruct (condense_features_against_any_dictionary Examples.labs
                Examples.partial_dict 1
                {| pat_key := 7; text := "sodium"; num := None |})
      as (c & Hc & Hk & Hm).
    + apply (bool_decide_unpack _). by vm_compute.
    + reflexivity.
    + exists c. vm_compute in Hc. injection Hc as <-. by repeat split.
Defined.

End FeatureMergeFacts.

(** ** The percentile intervals *)

Section PercentileMore.

Import Float Numpy Bootstrap.
Local Open Scope Qc_scope.

Lemma rank_order (a : Qc) :
  0 < a -> a < 1 ->
  0 <= lower_rank a / hundred
  /\ lower_rank a / hundred <= upper_rank a / hundred
  /\ upper_rank a / hundred <= 1.
Proof. intros H0 H1. qc2q. repeat split; lra. Qed.

(** X16.  Method "pct": for a significance level in (0,1) and one of the five
    interpolation policies the bounds of every metric are computed and
    the lower bound is not above the upper bound (both are NaN for a
    metric without a bootstrap value). *)
Theorem pct_interval_ordered
    (scores : matrix) (ncols : nat) (interpolation : string) (a : Qc)
    (Hip : is_Some (parse_interpolation interpolation))
    (H0 : 0 < a) (H1 : a < 1) :
  exists c,
    pct_cis scores ncols a interpolation = Ok c
    /\ length c = ncols
    /\ forall i lu, c !! i = Some lu -> cell_le lu.1 lu.2.
Proof.
  destruct Hip as [ip Hip].
  eexists. split; [by apply (pct_cis_ok _ _ _ _ ip) |].
  split; [by rewrite length_fmap, length_seq |].
  intros i lu Hlu. rewrite list_lookup_fmap in Hlu.
  destruct (seq 0 ncols !! i) as [k |]; [| done].
  simpl in Hlu. injection Hlu as <-. simpl.
  destruct (rank_order a H0 H1) as (? & ? & ?).
  by apply nanquantile_mono.
Qed.

Lemma pct_interval_ordered_witness :
  exists c,
    pct_cis Examples.scores5 1 Examples.half "nearest" = Ok c
    /\ length c = 1%nat
    /\ forall i lu, c !! i = Some lu -> cell_le lu.1 lu.2.
Proof.
  apply (pct_interval_ordered Examples.scores5 1 "nearest" Examples.half).
  - by eexists.
  - reflexivity.
  - reflexivity.
Defined.



Lemma take_elem (s : list Qc) (i : Z) :
  (0 <= i)%Z -> (i < Z.of_nat (length s))%Z -> take s i ∈ s.
Proof.
  intros H0 Hi. unfold take.
  destruct (lookup_lt_is_Some_2 s (Z.to_nat i)) as [x Hx]; [lia |].
  rewrite Hx. simpl. by eapply list_elem_of_lookup_2.
Qed.

Lemma quantile_elem (ip : interp) (s : list Qc) (q : Qc) :
  ip = Lower \/ ip = Higher \/ ip = Nearest ->
  s <> [] -> 0 <= q -> q <= 1 ->
  quantile ip s q ∈ s.
Proof.
  intros Hip Hne H0 H1. unfold quantile.
  set (m := (Z.of_nat (length s) - 1)%Z).
  assert (Hm : (0 <= m)%Z).
  { unfold m. destruct s; [done |]. simpl. lia. }
  assert (Hidx : 0 <= q * Qc_of_Z m /\ q * Qc_of_Z m <= Qc_of_Z m).
  { apply Z2Qc_inj_le in Hm. rewrite Z2Qc_inj_0 in Hm.
    revert Hm. generalize (Qc_of_Z m). intros c Hc.
    clear -H0 H1 Hc. qc2q. split; nra. }
  destruct Hidx as [Hi0 Him].
  destruct Hip as [-> | [-> | ->]].
  - pose proof (floor_range _ m Hi0 Him). apply take_elem; lia.
  - pose proof (ceil_range _ m Hi0 Him). apply take_elem; lia.
  - pose proof (around_range _ m Hi0 Him). apply take_elem; lia.
Qed.

Lemma dropna_elem (col : list cell) (v : Qc) : v ∈ dropna col <-> Some v ∈ col.
Proof.
  unfold dropna. rewrite list_elem_of_omap. split.
  - by intros (c & Hc & ->).
  - intros Hin. by exists (Some v).
Qed.

Lemma nanquantile_elem (ip : interp) (col : list cell) (q v : Qc) :
  ip = Lower \/ ip = Higher \/ ip = Nearest ->
  0 <= q -> q <= 1 ->
  nanquantile ip col q = Some v -> Some v ∈ col.
Proof.
  intros Hip H0 H1. unfold nanquantile.
  destruct (dropna col) as [| x vals] eqn:Hvals; [done |].
  intros [= <-]. apply dropna_elem. rewrite Hvals.
  rewrite <- (merge_sort_Permutation Qcle (x :: vals)) at 2.
  apply quantile_elem; [done | | done | done].
  intros Hnil.
  pose proof (merge_sort_Permutation Qcle (x :: vals)) as Hperm.
  rewrite Hnil in Hperm. by apply Permutation_nil_l in Hperm.
Qed.

(** X18.  Method "pct" with the default interpolation "nearest", or with
    "lower" or "higher": a bound that is a number is one of the bootstrap
    values of its metric, never a value between two of them. *)
Theorem pct_bounds_are_bootstrap_values
    (scores : matrix) (ncols : nat) (interpolation : string) (a : Qc) :
  interpolation ∈ ["lower"; "higher"; "nearest"]%string ->
  0 < a -> a < 1 ->
  exists c,
    pct_cis scores ncols a interpolation = Ok c
    /\ forall i lu v,
         c !! i = Some lu -> lu.1 = Some v \/ lu.2 = Some v ->
         Some v ∈ column scores i.
Proof.
  intros Hin H0 H1.
  assert (Hip : exists ip, parse_interpolation interpolation = Some ip
                           /\ (ip = Lower \/ ip = Higher \/ ip = Nearest)).
  { rewrite !elem_of_cons in Hin.
    destruct Hin as [-> | [-> | [-> | Hnil]]];
      [by exists Lower; auto | by exists Higher; auto | by exists Nearest; auto |].
    by apply elem_of_nil in Hnil. }
  destruct Hip as (ip & Hparse & Hip).
  eexists. split; [by apply (pct_cis_ok _ _ _ _ ip) |].
  intros i lu v Hlu Hv. rewrite list_lookup_fmap in Hlu.
  destruct (seq 0 ncols !! i) as [k |] eqn:Hk; [| done].
  apply lookup_seq in Hk as [-> _].
  simpl in Hlu. injection Hlu as <-. simpl in Hv.
  destruct (rank_order a H0 H1) as (Hl0 & Hlu & Hu1).
  destruct Hv as [Hv | Hv]; eapply nanquantile_elem; try exact Hv; try done.
  - by transitivity (upper_rank a / hundred).
  - by transitivity (lower_rank a / hundred).
Qed.

Lemma pct_bounds_are_bootstrap_values_witness :
  exists c,
    pct_cis Examples.scores5 1 Examples.half "nearest" = Ok c
    /\ forall i lu v,
         c !! i = Some lu -> lu.1 = Some v \/ lu.2 = Some v ->
         Some v ∈ column Examples.scores5 i.
Proof.
  apply (pct_bounds_are_bootstrap_values Examples.scores5 1 "nearest"
           Examples.half).
  - apply (bool_decide_unpack _). by vm_compute.
  - reflexivity.
  - reflexivity.
Defined.

End PercentileMore.

(** ** [jackknife_metrics] and the interval stage of [boot_cis] *)

Section DriverMore.

Import Float Numpy Bootstrap.
Local Open Scope Qc_scope.

Context {rng : Type}.
Variable clf_metrics : list Z -> list Z -> clf_args -> list cell.
Variable norm_ppf : fnum -> fnum.
Variable norm_cdf : fnum -> fnum.
Variable power_3_2 : Qc -> Qc.
Variable frame_mean : list cell -> cell.

Lemma res_mapM_app {A B} (f : A -> res B) (l1 l2 : list A) :
  res_mapM f (l1 ++ l2) =
  res_bind (res_mapM f l1) (fun a =>
  res_bind (res_mapM f l2) (fun b => Ok (a ++ b))).
Proof.
  induction l1 as [| x l1 IH]; simpl.
  - by destruct (res_mapM f l2).
  - destruct (f x) as [y | e]; simpl; [| done]. rewrite IH.
    destruct (res_mapM f l1) as [ys | e]; simpl; [| done].
    by destruct (res_mapM f l2).
Qed.

Lemma res_mapM_compose {A B C} (f : B -> res C) (h : A -> B) (l : list A) :
  res_mapM f (h <$> l) = res_mapM (fun x => f (h x)) l.
Proof. induction l as [| x l IH]; csimpl; [done |]. by rewrite IH. Qed.

Lemma np_index_seq {A} (l : list A) (a n : nat) :
  (a + n <= length l)%nat -> np_index l (seq a n) = Ok (firstn n (drop a l)).
Proof.
  unfold np_index. revert a. induction n as [| n IH]; intros a Hlen; simpl.
  - by rewrite take_0.
  - destruct (lookup_lt_is_Some_2 l a) as [x Hx]; [lia |].
    rewrite Hx. simpl. rewrite IH by lia. simpl.
    by rewrite (drop_S l x a Hx).
Qed.

Lemma delete_seq (k N : nat) :
  (k < N)%nat -> delete k (seq 0 N) = seq 0 k ++ seq (S k) (N - S k).
Proof.
  intros Hk. rewrite delete_take_drop, take_seq, drop_seq.
  by rewrite Nat.min_l by lia.
Qed.


(** [a[np.delete(rows, k)]] is [a] without its element [k]. *)
Lemma np_index_delete {A} (l : list A) (k : nat) :
  (k < length l)%nat ->
  np_index l (delete k (seq 0 (length l))) = Ok (delete k l).
Proof.
  intros Hk. rewrite delete_seq by done. unfold np_index.
  rewrite res_mapM_app. fold (np_index l (seq 0 k)).
  fold (np_index l (seq (S k) (length l - S k))).
  rewrite !np_index_seq by lia. simpl.
  rewrite delete_take_drop, drop_0. f_equal. f_equal.
  apply take_ge. rewrite length_drop. lia.
Qed.



(** X19.  The task list of [jackknife_metrics] on targets and guesses
    of equal length: indexing succeeds, there is one task per row, in row
    order, and task [k] holds the targets and the guesses without row
    [k], with [average_by] and [weighted] passed on. *)
Theorem jackknife_tasks_leave_one_row_out (targets guesses : list Z) ab wt :
  length guesses = length targets ->
  jackknife_inputs targets guesses ab wt =
  Ok ((fun k =>
         (delete k targets, delete k guesses,
          {| average_by := Some ab; weighted := Some wt; mcnemar := None |}))
        <$> seq 0 (length targets)).
Proof.
  intros Hlen. unfold jackknife_inputs. cbv zeta.
  rewrite res_mapM_compose. apply res_mapM_fmap.
  intros k Hk. apply elem_of_seq in Hk.
  rewrite np_index_delete by lia. simpl.
  rewrite <- Hlen. rewrite np_index_delete by lia. done.
Qed.

Lemma jackknife_tasks_leave_one_row_out_witness :
  jackknife_inputs Examples.targets5 Examples.guesses5 None true =
  Ok ((fun k =>
         (delete k Examples.targets5, delete k Examples.guesses5,
          {| average_by := Some None; weighted := Some true; mcnemar := None |}))
        <$> seq 0 (length Examples.targets5)).
Proof.
  apply (jackknife_tasks_leave_one_row_out Examples.targets5 Examples.guesses5
           None true).
  reflexivity.
Defined.








End DriverMore.

(** ** [jackknife_metrics] and the interval stage on concrete inputs *)

Section DriverMoreExamples.

Import Float Numpy Bootstrap Examples.



End DriverMoreExamples.

(** ** Order of the bootstrap values, and the "diff" method *)

Section PercentileSymmetry.

Import Float Numpy Bootstrap.
Local Open Scope Qc_scope.

Lemma sorted_unique (l1 l2 : list Qc) :
  StronglySorted Qcle l1 -> StronglySorted Qcle l2 -> l1 ≡ₚ l2 -> l1 = l2.
Proof.
  apply StronglySorted_unique_strong.
  intros x y _ _ Hxy Hyx. by apply Qcle_antisym.
Qed.

Lemma merge_sort_perm (l1 l2 : list Qc) :
  l1 ≡ₚ l2 -> merge_sort Qcle l1 = merge_sort Qcle l2.
Proof.
  intros Hp. apply sorted_unique.
  - apply StronglySorted_merge_sort; apply _.
  - apply StronglySorted_merge_sort; apply _.
  - by rewrite !merge_sort_Permutation.
Qed.

Lemma dropna_perm (c1 c2 : list cell) : c1 ≡ₚ c2 -> dropna c1 ≡ₚ dropna c2.
Proof. intros Hp. unfold dropna. by rewrite Hp. Qed.

Lemma nanquantile_perm ip (c1 c2 : list cell) q :
  c1 ≡ₚ c2 -> nanquantile ip c1 q = nanquantile ip c2 q.
Proof.
  intros Hp. apply dropna_perm in Hp. unfold nanquantile.
  destruct (dropna c1) as [| x1 l1] eqn:H1, (dropna c2) as [| x2 l2] eqn:H2.
  - done.
  - by apply Permutation_nil_l in Hp.
  - by apply Permutation_nil_r in Hp.
  - by rewrite (merge_sort_perm _ _ Hp).
Qed.

Lemma nanpercentile2_perm (c1 c2 : list cell) q interpolation :
  c1 ≡ₚ c2 ->
  nanpercentile2 c1 q interpolation = nanpercentile2 c2 q interpolation.
Proof.
  intros Hp. unfold nanpercentile2, nanpercentile.
  destruct q as [[ql | | |] [qu | | |]]; cbn [fst snd]; try done;
    repeat case_decide; try done;
    destruct (parse_interpolation interpolation); try done;
    by rewrite !(nanquantile_perm _ c1 c2 _ Hp).
Qed.

Lemma column_perm (m1 m2 : matrix) i : m1 ≡ₚ m2 -> column m1 i ≡ₚ column m2 i.
Proof. intros Hp. unfold column. by rewrite Hp. Qed.

(** X26.  The "pct" and "diff" intervals do not depend on the order of the
    rows of the table of bootstrap metrics: two tables with the same rows
    in any order give the same outcome, bounds or error. *)
Theorem intervals_ignore_row_order (stat : list cell) (m1 m2 : matrix)
    (ncols : nat) (a : Qc) (interpolation : string) :
  m1 ≡ₚ m2 ->
  pct_cis m1 ncols a interpolation = pct_cis m2 ncols a interpolation
  /\ diff_cis stat m1 a interpolation = diff_cis stat m2 a interpolation.
Proof.
  intros Hp. split.
  - unfold pct_cis. apply res_mapM_ext. intros i _.
    apply nanpercentile2_perm. by apply column_perm.
  - unfold diff_cis. apply res_mapM_ext. intros i _. cbv zeta.
    rewrite (nanpercentile2_perm _
               ((fun c => cell_sub (from_option (fun c => c) None (stat !! i)) c)
                  <$> column m2 i)); [done |].
    apply fmap_Permutation. by apply column_perm.
Qed.

Lemma intervals_ignore_row_order_witness :
  pct_cis Examples.scores5 1 Examples.half "nearest" =
    pct_cis (reverse Examples.scores5) 1 Examples.half "nearest"
  /\ diff_cis [Some 1] Examples.scores5 Examples.half "nearest" =
     diff_cis [Some 1] (reverse Examples.scores5) Examples.half "nearest".
Proof.
  apply (intervals_ignore_row_order [Some 1] Examples.scores5
           (reverse Examples.scores5) 1 Examples.half "nearest").
  symmetry. apply reverse_Permutation.
Defined.

Lemma floor_unique (x : Qc) (k : Z) :
  Qc_of_Z k <= x -> x < Qc_of_Z (k + 1) -> floor x = k.
Proof.
  intros Hl Hu.
  pose proof (floor_lb x) as Hfl. pose proof (floor_ub x) as Hfu.
  assert (H1 : Qc_of_Z (floor x) < Qc_of_Z (k + 1)).
  { eapply Qcle_lt_trans; [exact Hfl | exact Hu]. }
  assert (H2 : Qc_of_Z k < Qc_of_Z (floor x + 1)).
  { eapply Qcle_lt_trans; [exact Hl | exact Hfu]. }
  apply Z2Qc_inj_lt in H1, H2. lia.
Qed.

Lemma take_reflect (s : Qc) (l : list Qc) (i : Z) :
  (0 <= i)%Z -> (i < Z.of_nat (length l))%Z ->
  take (reverse ((fun x => s - x) <$> l)) i =
  s - take l (Z.of_nat (length l) - 1 - i).
Proof.
  intros H0 Hi. unfold take.
  rewrite reverse_lookup by (rewrite length_fmap; lia).
  rewrite length_fmap, list_lookup_fmap.
  replace (Z.to_nat (Z.of_nat (length l) - 1 - i))
    with (length l - S (Z.to_nat i))%nat by lia.
  destruct (lookup_lt_is_Some_2 l (length l - S (Z.to_nat i))) as [x Hx]; [lia |].
  by rewrite Hx.
Qed.

(** Linear interpolation in the reflected, reversed list. *)
Lemma interpolate_reflect (s : Qc) (l : list Qc) (t : Qc) :
  l <> [] ->
  0 <= t -> t <= Qc_of_Z (Z.of_nat (length l) - 1) ->
  interpolate (reverse ((fun x => s - x) <$> l)) t =
  s - interpolate l (Qc_of_Z (Z.of_nat (length l) - 1) - t).
Proof.
  intros Hne H0 Hm. unfold interpolate.
  rewrite length_reverse, length_fmap.
  set (m := (Z.of_nat (length l) - 1)%Z) in *.
  assert (Hm0 : (0 <= m)%Z).
  { unfold m. destruct l; [done |]. simpl. lia. }
  pose proof (floor_range t m H0 Hm) as [Hi0 Him].
  pose proof (floor_lb t) as Hlb. pose proof (floor_ub t) as Hub.
  set (i := floor t) in *.
  destruct (decide (t = Qc_of_Z i)) as [Heq | Hneq].
  - assert (Hf' : floor (Qc_of_Z m - t) = (m - i)%Z).
    { rewrite Heq, <- Z2Qc_inj_sub. apply floor_of_Z. }
    rewrite Hf'.
    rewrite (take_reflect s l i) by lia. fold m.
    assert (Hw : t - Qc_of_Z i = 0) by (rewrite Heq; ring).
    assert (Hw' : Qc_of_Z m - t - Qc_of_Z (m - i) = 0).
    { rewrite Heq, Z2Qc_inj_sub. ring. }
    rewrite Hw, Hw'. ring.
  - assert (Hlt : Qc_of_Z i < t).
    { apply Qcle_lt_or_eq in Hlb as [? | ?]; [done | congruence]. }
    assert (Him' : (i + 1 <= m)%Z).
    { assert (Qc_of_Z i < Qc_of_Z m) as H%Z2Qc_inj_lt; [| lia].
      by eapply Qclt_le_trans. }
    assert (Hf' : floor (Qc_of_Z m - t) = (m - i - 1)%Z).
    { apply floor_unique.
      - rewrite !Z2Qc_inj_sub, Z2Qc_inj_1.
        rewrite Z2Qc_inj_add, Z2Qc_inj_1 in Hub. clear -Hub.
        revert Hub. generalize (Qc_of_Z i) (Qc_of_Z m). intros ci cm ?.
        qc2q. lra.
      - replace (m - i - 1 + 1)%Z with (m - i)%Z by lia.
        rewrite Z2Qc_inj_sub. clear -Hlt.
        revert Hlt. generalize (Qc_of_Z i) (Qc_of_Z m). intros ci cm ?.
        qc2q. lra. }
    rewrite Hf'.
    rewrite (Z.min_l (i + 1) m) by lia.
    rewrite (Z.min_l (m - i - 1 + 1) m) by lia.
    rewrite (take_reflect s l i), (take_reflect s l (i + 1)) by lia. fold m.
    replace (m - (i + 1))%Z with (m - i - 1)%Z by lia.
    replace (m - i - 1 + 1)%Z with (m - i)%Z by lia.
    rewrite !Z2Qc_inj_sub, Z2Qc_inj_1.
    ring.
Qed.

Lemma quantile_linear_reflect (s : Qc) (l : list Qc) (q : Qc) :
  l <> [] -> 0 <= q -> q <= 1 ->
  quantile Linear (reverse ((fun x => s - x) <$> l)) q =
  s - quantile Linear l (1 - q).
Proof.
  intros Hne H0 H1. unfold quantile.
  rewrite length_reverse, length_fmap.
  set (m := (Z.of_nat (length l) - 1)%Z).
  assert (Hm0 : (0 <= m)%Z).
  { unfold m. destruct l; [done |]. simpl. lia. }
  replace ((1 - q) * Qc_of_Z m) with (Qc_of_Z m - q * Qc_of_Z m) by ring.
  apply interpolate_reflect; [done | |]; fold m.
  - apply Z2Qc_inj_le in Hm0. rewrite Z2Qc_inj_0 in Hm0.
    revert Hm0. generalize (Qc_of_Z m). intros c Hc.
    clear -H0 H1 Hc. qc2q. nra.
  - apply Z2Qc_inj_le in Hm0. rewrite Z2Qc_inj_0 in Hm0.
    revert Hm0. generalize (Qc_of_Z m). intros c Hc.
    clear -H0 H1 Hc. qc2q. nra.
Qed.

Lemma sorted_reflect (s : Qc) (l : list Qc) :
  StronglySorted Qcle l ->
  StronglySorted Qcle (reverse ((fun x => s - x) <$> l)).
Proof.
  induction 1 as [| x l Hs IH Hall]; [constructor |].
  rewrite fmap_cons, reverse_cons. apply StronglySorted_app_2; [| done |].
  - intros x1 x2 Hx1 Hx2. apply list_elem_of_singleton in Hx2 as ->.
    apply elem_of_reverse, list_elem_of_fmap in Hx1 as (y & -> & Hy).
    rewrite Forall_forall in Hall. specialize (Hall y Hy).
    clear -Hall. qc2q. lra.
  - repeat constructor.
Qed.

Lemma merge_sort_reflect (s : Qc) (l : list Qc) :
  merge_sort Qcle ((fun x => s - x) <$> l) =
  reverse ((fun x => s - x) <$> merge_sort Qcle l).
Proof.
  apply sorted_unique.
  - apply StronglySorted_merge_sort; apply _.
  - apply sorted_reflect, StronglySorted_merge_sort; apply _.
  - by rewrite reverse_Permutation, !merge_sort_Permutation.
Qed.

Lemma dropna_diffs (s : Qc) (col : list cell) :
  dropna ((fun c => cell_sub (Some s) c) <$> col) =
  (fun x => s - x) <$> dropna col.
Proof.
  unfold dropna. induction col as [| [x |] col IH]; csimpl; [done | |].
  - f_equal. exact IH.
  - exact IH.
Qed.

Lemma nanquantile_nonempty ip (col : list cell) (q : Qc) :
  dropna col <> [] ->
  nanquantile ip col q = Some (quantile ip (merge_sort Qcle (dropna col)) q).
Proof. unfold nanquantile. by destruct (dropna col). Qed.

Lemma nanquantile_empty ip (col : list cell) (q : Qc) :
  dropna col = [] -> nanquantile ip col q = None.
Proof. unfold nanquantile. by intros ->. Qed.

Lemma nanquantile_linear_reflect (s : cell) (col : list cell) (q : Qc) :
  0 <= q -> q <= 1 ->
  nanquantile Linear ((fun c => cell_sub s c) <$> col) q =
  cell_sub s (nanquantile Linear col (1 - q)).
Proof.
  intros H0 H1. destruct s as [s |].
  - destruct (decide (dropna col = [])) as [Hnil | Hne].
    + rewrite !nanquantile_empty; [done | done |].
      by rewrite dropna_diffs, Hnil.
    + rewrite !nanquantile_nonempty; [| done |].
      * rewrite dropna_diffs, merge_sort_reflect. simpl. f_equal.
        apply quantile_linear_reflect; [| done | done].
        intros Hnil. apply Hne.
        pose proof (merge_sort_Permutation Qcle (dropna col)) as Hperm.
        rewrite Hnil in Hperm. by apply Permutation_nil_l in Hperm.
      * rewrite dropna_diffs. intros Hnil. by apply fmap_nil_inv in Hnil.
  - rewrite nanquantile_empty; [done |].
    unfold dropna. induction col as [| c col IH]; csimpl; [done |].
    exact IH.
Qed.

(** X27.  Method "diff" with linear interpolation is the reflection of method
    "pct" about the point estimate: for a significance level in (0,1)
    both are computed, and the lower "diff" bound of a metric is the
    estimate plus its distance to the upper "pct" bound, the upper "diff"
    bound the estimate plus its distance to the lower "pct" bound. *)
Theorem diff_reflects_pct (stat : list cell) (m : matrix) (a : Qc) :
  0 < a -> a < 1 ->
  exists p d,
    pct_cis m (length stat) a "linear" = Ok p
    /\ diff_cis stat m a "linear" = Ok d
    /\ length p = length stat /\ length d = length stat
    /\ forall i s lu ld,
         stat !! i = Some s -> p !! i = Some lu -> d !! i = Some ld ->
         ld.1 = cell_add s (cell_sub s lu.2)
         /\ ld.2 = cell_add s (cell_sub s lu.1).
Proof.
  intros H0 H1.
  destruct (rank_ranges a H0 H1) as (Hl0 & Hl1 & Hu0 & Hu1).
  destruct (rank_order a H0 H1) as (Hq0 & Hq01 & Hq1).
  assert (Hsym : 1 - lower_rank a / hundred = upper_rank a / hundred
                 /\ 1 - upper_rank a / hundred = lower_rank a / hundred).
  { unfold upper_rank, lower_rank, hundred. split; field.
    all: split; intros H; apply (f_equal this) in H; vm_compute in H;
      discriminate H. }
  destruct Hsym as [Hsl Hsu].
  eexists _, _.
  split; [by apply (pct_cis_ok _ _ _ _ Linear) |].
  split.
  { unfold diff_cis. apply res_mapM_fmap. intros i _. cbv zeta.
    unfold nanpercentile2. cbn [fst snd].
    rewrite !(nanpercentile_ok _ _ _ Linear) by done.
    cbn [res_bind fst snd]. reflexivity. }
  split; [by rewrite length_fmap, length_seq |].
  split; [by rewrite length_fmap, length_seq |].
  intros i s lu ld Hs Hlu Hld.
  pose proof (lookup_lt_Some _ _ _ Hs) as Hi.
  rewrite list_lookup_fmap, lookup_seq_lt in Hlu, Hld by done.
  simpl in Hlu, Hld. injection Hlu as <-. injection Hld as <-.
  cbn [fst snd]. unfold cell in Hs |- *. rewrite Hs. cbn [from_option].
  rewrite !nanquantile_linear_reflect.
  - by rewrite Hsl, Hsu.
  - by transitivity (lower_rank a / hundred).
  - done.
  - done.
  - by transitivity (upper_rank a / hundred).
Qed.

Lemma diff_reflects_pct_witness :
  exists p d,
    pct_cis Examples.scores5 1 Examples.half "linear" = Ok p
    /\ diff_cis [Some 1] Examples.scores5 Examples.half "linear" = Ok d
    /\ length p = 1%nat /\ length d = 1%nat
    /\ forall i s lu ld,
         [Some 1] !! i = Some s -> p !! i = Some lu -> d !! i = Some ld ->
         ld.1 = cell_add s (cell_sub s lu.2)
         /\ ld.2 = cell_add s (cell_sub s lu.1).
Proof.
  apply (diff_reflects_pct [Some 1] Examples.scores5 Examples.half);
    reflexivity.
Defined.

End PercentileSymmetry.

(** ** The adjusted ranks of method "bca" *)

Section BcaMore.

Import Float Numpy Bootstrap.
Local Open Scope Qc_scope.

Variable norm_ppf : fnum -> fnum.
Variable norm_cdf : fnum -> fnum.

Lemma bca_rank_zero (z : Qc) :
  bca_rank norm_cdf (Fin 0) (Fin 0) (Fin z) = fmul (norm_cdf (Fin z)) (Fin hundred).
Proof.
  unfold bca_rank, fsub, fadd, fmul, fopp, fdiv.
  assert (Hden : 1 + - (0 * (0 + z)) = 1) by ring.
  rewrite Hden. rewrite decide_False by done.
  assert (Hz : 0 + (0 + z) / 1 = z) by (field; done).
  by rewrite Hz.
Qed.

(** X22.  Method "bca" for a metric whose bias correction and
    acceleration are both 0, where the normal quantiles of a/2 and of
    1 - a/2 are finite: the adjusted ranks are 100 times the normal
    distribution function at these two quantiles, and the bounds are the
    percentiles of the bootstrap values at these ranks. *)
Theorem bca_ranks_without_correction (a zl zu : Qc) :
  norm_ppf (Fin (a / 2)) = Fin zl ->
  norm_ppf (Fin (1 - a / 2)) = Fin zu ->
  bca_ranks norm_ppf norm_cdf (Fin 0) (Fin 0) a =
    (fmul (norm_cdf (Fin zl)) (Fin hundred),
     fmul (norm_cdf (Fin zu)) (Fin hundred))
  /\ forall col interpolation,
       bca_ci norm_ppf norm_cdf col (Fin 0) (Fin 0) a interpolation =
       nanpercentile2 col
         (fmul (norm_cdf (Fin zl)) (Fin hundred),
          fmul (norm_cdf (Fin zu)) (Fin hundred)) interpolation.
Proof.
  intros Hl Hu.
  assert (Hranks : bca_ranks norm_ppf norm_cdf (Fin 0) (Fin 0) a =
            (fmul (norm_cdf (Fin zl)) (Fin hundred),
             fmul (norm_cdf (Fin zu)) (Fin hundred))).
  { unfold bca_ranks. by rewrite Hl, Hu, !bca_rank_zero. }
  split; [exact Hranks |].
  intros col interpolation. unfold bca_ci. by rewrite Hranks.
Qed.

End BcaMore.

Section BcaMoreExamples.

Import Float Numpy Bootstrap Examples.
Local Open Scope Qc_scope.

Lemma bca_ranks_without_correction_witness :
  bca_ranks uniform_ppf uniform_cdf (Fin 0) (Fin 0) half =
    (fmul (uniform_cdf (Fin (- quarter))) (Fin hundred),
     fmul (uniform_cdf (Fin quarter)) (Fin hundred))
  /\ forall col interpolation,
       bca_ci uniform_ppf uniform_cdf col (Fin 0) (Fin 0) half interpolation =
       nanpercentile2 col
         (fmul (uniform_cdf (Fin (- quarter))) (Fin hundred),
          fmul (uniform_cdf (Fin quarter)) (Fin hundred)) interpolation.
Proof.
  apply (bca_ranks_without_correction uniform_ppf uniform_cdf half
           (- quarter) quarter).
  - vm_compute. f_equal. by apply Qc_is_canon.
  - vm_compute. f_equal. by apply Qc_is_canon.
Defined.

End BcaMoreExamples.
